(** * Multimedia drone system: command pipeline, statistics and frame buffer

    A shallow embedding of the command path of
    [multimedia_drone_working.py] ([execute_voice_command], the voice loop
    of [start_voice_control], [handle_manual_command], [video_capture_loop],
    [generate_video_frames]) and of [drone_simulation_base.py]
    ([get_positions], [move_target], [drone_takeoff], [drone_land],
    [drone_move]).

    Conventions of the embedding:
    - text is a [string] whose characters are the code points 0 to 255
      (Latin-1); on such text [lower] and [strip] are Python's [str.lower]
      and [str.strip], non-ASCII letters and spaces included; text with
      code points above 255 is outside the model;
    - coordinates are IEEE binary64 numbers, as numpy's float64: Rocq's
      primitive floats, so every sum, difference and comparison below is
      the one the interpreter performs;
    - [self] is a record, threaded through a state-and-exception monad;
      Python exceptions are the [Raise] outcome, [try]/[except] is
      [try_except];
    - the remote simulator is a table saying, for every object handle,
      what [getObjectPosition] answers and whether [setObjectPosition]
      raises; every link call is recorded in [link_calls];
    - [print] calls and [time.sleep] are left out. *)

From Stdlib Require Import String Ascii List Bool Arith ZArith Lia.
From Stdlib Require Import DecimalString Floats.
Import ListNotations.

#[local] Set Warnings "-inexact-float".
#[local] Open Scope string_scope.
#[local] Open Scope list_scope.

(** ** Python strings *)

Module PyStr.

(** [c.lower()] on one character: the letters A to Z, and the Latin-1
    capitals U+00C0 to U+00DE except the multiplication sign U+00D7, move
    up by 32; every other code point below 256 is its own lowercase. *)
Definition lower_char (c : ascii) : ascii :=
  let n := nat_of_ascii c in
  if (((65 <=? n) && (n <=? 90))
      || ((192 <=? n) && (n <=? 222) && negb (n =? 215)))%nat
  then ascii_of_nat (n + 32) else c.

(** [s.lower()]. *)
Fixpoint lower (s : string) : string :=
  match s with
  | EmptyString => EmptyString
  | String c s' => String (lower_char c) (lower s')
  end.

(** [c.isspace()], the characters [str.strip()] removes: tab, newline,
    vertical tab, form feed, carriage return, the four separators
    U+001C to U+001F, the space, the next-line control U+0085 and the
    no-break space U+00A0. *)
Definition isspace (c : ascii) : bool :=
  let n := nat_of_ascii c in
  (((9 <=? n) && (n <=? 13)) || ((28 <=? n) && (n <=? 32))
   || (n =? 133) || (n =? 160))%nat.

Fixpoint lstrip (s : string) : string :=
  match s with
  | EmptyString => EmptyString
  | String c s' => if isspace c then lstrip s' else s
  end.

Fixpoint rstrip (s : string) : string :=
  match s with
  | EmptyString => EmptyString
  | String c s' =>
      match rstrip s' with
      | EmptyString => if isspace c then EmptyString else String c EmptyString
      | r => String c r
      end
  end.

(** [s.strip()]. *)
Definition strip (s : string) : string := rstrip (lstrip s).

(** [sub in s]: [sub] occurs in [s] as a contiguous substring. *)
Fixpoint contains (sub s : string) : bool :=
  if String.prefix sub s then true
  else match s with
       | EmptyString => false
       | String _ s' => contains sub s'
       end.

(** [any(phrase in command for phrase in phrases)]. *)
Definition any_in (phrases : list string) (command : string) : bool :=
  existsb (fun phrase => contains phrase command) phrases.

(** Truth value of a string: [if command:]. *)
Definition truthy (s : string) : bool :=
  match s with EmptyString => false | _ => true end.

(** [str(n)] for a natural number. *)
Definition str_of_nat (n : nat) : string :=
  NilEmpty.string_of_uint (Nat.to_uint n).

End PyStr.

Import PyStr.

(** ** The command normalizer

    [execute_voice_command] has no separate parsing function: it is one
    [if]/[elif] chain whose branches call the drone operations.  [classify]
    is that chain with each branch replaced by the action it performs;
    [execute_voice_command_dispatch] below proves that the source function
    is [classify] followed by [perform]. *)

Inductive Direction := Forward | Backward | Left | Right | Up | Down.

Inductive Action :=
| TakeOff
| Land
| Move (d : Direction)
| Hover
| Unknown (text : string).

Definition classify (command : string) : Action :=
  if any_in ["take off"; "takeoff"; "lift off"] command then TakeOff
  else if any_in ["land"; "landing"] command then Land
  else if any_in ["forward"; "ahead"] command then Move Forward
  else if any_in ["back"; "backward"] command then Move Backward
  else if contains "left" command then Move Left
  else if contains "right" command then Move Right
  else if contains "up" command then Move Up
  else if contains "down" command then Move Down
  else if any_in ["stop"; "halt"; "hover"] command then Hover
  else if contains "for" command then Move Forward
  else if contains "lef" command then Move Left
  else if contains "righ" command || contains "write" command then Move Right
  else Unknown command.

(** A rule table and its first-match interpretation. *)
Definition Rule : Type := list string * Action.

Fixpoint first_match (rules : list Rule) (command : string) : Action :=
  match rules with
  | [] => Unknown command
  | (phrases, a) :: rest =>
      if any_in phrases command then a else first_match rest command
  end.

Definition takeoff_rule : Rule := (["take off"; "takeoff"; "lift off"], TakeOff).
Definition land_rule : Rule := (["land"; "landing"], Land).
Definition hover_rule : Rule := (["stop"; "halt"; "hover"], Hover).

Definition directional_rules : list Rule :=
  [ (["forward"; "ahead"], Move Forward);
    (["back"; "backward"], Move Backward);
    (["left"], Move Left);
    (["right"], Move Right);
    (["up"], Move Up);
    (["down"], Move Down) ].

Definition fuzzy_rules : list Rule :=
  [ (["for"], Move Forward);
    (["lef"], Move Left);
    (["righ"; "write"], Move Right) ].

(** The order in which the source tests the rules. *)
Definition source_rules : list Rule :=
  [takeoff_rule; land_rule] ++ directional_rules ++ [hover_rule] ++ fuzzy_rules.

(** The order the specification lists: the three exact-phrase sets, then
    the directional sets, then the fuzzy fallbacks. *)
Definition listed_rules : list Rule :=
  [takeoff_rule; land_rule; hover_rule] ++ directional_rules ++ fuzzy_rules.

Definition listed_normalize (command : string) : Action :=
  first_match listed_rules command.

(** Some rule of a table matches. *)
Definition matches (rules : list Rule) (command : string) : bool :=
  existsb (fun r => any_in (fst r) command) rules.

(** ** Exceptions, the simulator link and [self] *)

(** A Python exception, with the text [str(e)] gives. *)
Inductive exn := Exception (msg : string).

Definition exn_str (e : exn) : string :=
  match e with Exception msg => msg end.

Inductive outcome (A : Type) : Type :=
| Ret (a : A)
| Raise (e : exn).
Arguments Ret {A} a.
Arguments Raise {A} e.

(** A numpy float64 vector. *)
Definition ndarray : Type := list float.

(** The remote simulator, as seen through the link: [object_position h] is
    what [sim.getObjectPosition(h, -1)] answers (a list of coordinates, or
    an exception), [set_failure h p] is the exception
    [sim.setObjectPosition(h, -1, p)] raises, if any.  A write that succeeds
    becomes the position later reads return. *)
Record Sim := {
  object_position : Z -> outcome ndarray;
  set_failure : Z -> ndarray -> option exn
}.

Inductive LinkCall :=
| GetObjectPosition (h : Z)
| SetObjectPosition (h : Z) (p : ndarray).

(** [self.stats]: a dict with fixed keys ([start_time] is a wall-clock
    reading that nothing below depends on, and is left out). *)
Record Stats := {
  connected_clients : Z;
  total_commands : Z;
  successful_commands : Z;
  stats_last_command : string;
  drone_status : string
}.

(** A message sent to web clients: [socketio.emit(event, {...})] in the
    voice loop, [emit(event, {...})] in a socket handler. *)
Record Emit := {
  ev_event : string;
  ev_command : string;
  ev_status : string;
  ev_message : string
}.

(** The fields of [self] that the command path reads or writes.
    [link_calls] and [emitted] are logs, oldest entry first. *)
Record Self := {
  connected : bool;
  drone_handle : option Z;
  target_handle : option Z;
  sim : Sim;
  link_calls : list LinkCall;
  stats : Stats;
  last_command : string;
  socketio_available : bool;
  emitted : list Emit
}.

Definition with_sim (x : Sim) (s : Self) : Self :=
  {| connected := connected s; drone_handle := drone_handle s;
     target_handle := target_handle s; sim := x;
     link_calls := link_calls s; stats := stats s;
     last_command := last_command s;
     socketio_available := socketio_available s; emitted := emitted s |}.

Definition with_link_calls (x : list LinkCall) (s : Self) : Self :=
  {| connected := connected s; drone_handle := drone_handle s;
     target_handle := target_handle s; sim := sim s;
     link_calls := x; stats := stats s;
     last_command := last_command s;
     socketio_available := socketio_available s; emitted := emitted s |}.

Definition with_stats (x : Stats) (s : Self) : Self :=
  {| connected := connected s; drone_handle := drone_handle s;
     target_handle := target_handle s; sim := sim s;
     link_calls := link_calls s; stats := x;
     last_command := last_command s;
     socketio_available := socketio_available s; emitted := emitted s |}.

Definition with_last_command (x : string) (s : Self) : Self :=
  {| connected := connected s; drone_handle := drone_handle s;
     target_handle := target_handle s; sim := sim s;
     link_calls := link_calls s; stats := stats s;
     last_command := x;
     socketio_available := socketio_available s; emitted := emitted s |}.

Definition with_emitted (x : list Emit) (s : Self) : Self :=
  {| connected := connected s; drone_handle := drone_handle s;
     target_handle := target_handle s; sim := sim s;
     link_calls := link_calls s; stats := stats s;
     last_command := last_command s;
     socketio_available := socketio_available s; emitted := x |}.

(** ** The state-and-exception monad of methods on [self] *)

Definition M (A : Type) : Type := Self -> outcome A * Self.

Definition ret {A} (a : A) : M A := fun s => (Ret a, s).

Definition raise {A} (e : exn) : M A := fun s => (Raise e, s).

Definition bind {A B} (m : M A) (k : A -> M B) : M B :=
  fun s =>
    match m s with
    | (Ret a, s') => k a s'
    | (Raise e, s') => (Raise e, s')
    end.

(** [try: body except Exception as e: handler(e)].  What [body] did to
    [self] before raising stays done. *)
Definition try_except {A} (body : M A) (handler : exn -> M A) : M A :=
  fun s =>
    match body s with
    | (Ret a, s') => (Ret a, s')
    | (Raise e, s') => handler e s'
    end.

Definition get_self : M Self := fun s => (Ret s, s).

Definition modify (f : Self -> Self) : M unit := fun s => (Ret tt, f s).

Declare Scope py_scope.
Delimit Scope py_scope with py.
Notation "x <- m ;; k" := (bind m (fun x => k))
  (at level 61, m at next level, right associativity) : py_scope.
Notation "m ;;; k" := (bind m (fun _ => k))
  (at level 61, right associativity) : py_scope.
#[local] Open Scope py_scope.

(** ** numpy indexing *)

(** numpy's [IndexError] for a one-dimensional array. *)
Definition IndexError (i size : nat) : exn :=
  Exception ("index " ++ str_of_nat i ++ " is out of bounds for axis 0 with size "
             ++ str_of_nat size).

(** [a[i]] *)
Definition getitem (a : ndarray) (i : nat) : M float :=
  match nth_error a i with
  | Some x => ret x
  | None => raise (IndexError i (length a))
  end.

Fixpoint update (a : ndarray) (i : nat) (v : float) : ndarray :=
  match a, i with
  | [], _ => []
  | _ :: a', O => v :: a'
  | x :: a', S i' => x :: update a' i' v
  end.

(** [a[i] = v]: the array is local to the calling method, so the
    assignment is a functional update; out of range it raises. *)
Definition setitem (a : ndarray) (i : nat) (v : float) : M ndarray :=
  if (i <? length a)%nat then ret (update a i v)
  else raise (IndexError i (length a)).

(** Python's [max(a, b)]: [b] if [b > a], else [a]. *)
Definition pymax (a b : float) : float :=
  if PrimFloat.ltb a b then b else a.

(** ** The link calls *)

Definition log_call (c : LinkCall) : M unit :=
  modify (fun s => with_link_calls (link_calls s ++ [c]) s).

(** [self.sim.getObjectPosition(h, -1)] *)
Definition sim_getObjectPosition (h : Z) : M ndarray :=
  log_call (GetObjectPosition h) ;;;
  s <- get_self ;;
  match object_position (sim s) h with
  | Ret p => ret p
  | Raise e => raise e
  end.

Definition sim_write (h : Z) (p : ndarray) (x : Sim) : Sim :=
  {| object_position := fun h' => if (h' =? h)%Z then Ret p else object_position x h';
     set_failure := set_failure x |}.

(** [self.sim.setObjectPosition(h, -1, p)] *)
Definition sim_setObjectPosition (h : Z) (p : ndarray) : M unit :=
  log_call (SetObjectPosition h p) ;;;
  s <- get_self ;;
  match set_failure (sim s) h p with
  | Some e => raise e
  | None => modify (fun s => with_sim (sim_write h p (sim s)) s)
  end.

(** ** [DroneSimulationBase]: positions and the three drone operations *)

(** Truth value of a handle ([if self.drone_handle and self.target_handle]):
    [None] and the integer 0 are false. *)
Definition truthy_handle (h : option Z) : option Z :=
  match h with
  | Some z => if (z =? 0)%Z then None else Some z
  | None => None
  end.

Definition get_positions : M (option ndarray * option ndarray) :=
  s <- get_self ;;
  try_except
    (match truthy_handle (drone_handle s), truthy_handle (target_handle s) with
     | Some dh, Some th =>
         drone_pos <- sim_getObjectPosition dh ;;
         target_pos <- sim_getObjectPosition th ;;
         ret (Some drone_pos, Some target_pos)
     | _, _ => ret (None, None)
     end)
    (fun _ => ret (None, None)).

Definition move_target (position : ndarray) : M bool :=
  s <- get_self ;;
  match target_handle s with
  | Some h =>
      try_except
        (sim_setObjectPosition h position ;;; ret true)
        (fun _ => ret false)
  | None => ret false
  end.

(** The dict every command returns. *)
Record Result := {
  status : string;
  message : string
}.

Definition success (msg : string) : Result :=
  {| status := "success"; message := msg |}.

Definition error (msg : string) : Result :=
  {| status := "error"; message := msg |}.

Definition drone_takeoff : M Result :=
  try_except
    (pos <- get_positions ;;
     match snd pos with
     | Some current_target =>
         z <- getitem current_target 2 ;;
         current_target <- setitem current_target 2 (pymax 1.0 z) ;;
         moved <- move_target current_target ;;
         if moved then ret (success "Taking off")
         else ret (error "Takeoff failed")
     | None => ret (error "Takeoff failed")
     end)
    (fun _ => ret (error "Takeoff failed - check CoppeliaSim")).

Definition drone_land : M Result :=
  try_except
    (pos <- get_positions ;;
     match snd pos with
     | Some current_target =>
         current_target <- setitem current_target 2 0.3%float ;;
         moved <- move_target current_target ;;
         if moved then ret (success "Landing")
         else ret (error "Landing failed")
     | None => ret (error "Landing failed")
     end)
    (fun _ => ret (error "Landing failed - check CoppeliaSim")).

Definition move_step : float := 0.2.

(** The [if direction == ...] chain of [drone_move]: the new target. *)
Definition step_target (direction : string) (current_target : ndarray) : M ndarray :=
  if direction =? "forward" then
    x <- getitem current_target 0 ;; setitem current_target 0 (x + move_step)%float
  else if direction =? "backward" then
    x <- getitem current_target 0 ;; setitem current_target 0 (x - move_step)%float
  else if direction =? "left" then
    y <- getitem current_target 1 ;; setitem current_target 1 (y + move_step)%float
  else if direction =? "right" then
    y <- getitem current_target 1 ;; setitem current_target 1 (y - move_step)%float
  else if direction =? "up" then
    z <- getitem current_target 2 ;; setitem current_target 2 (z + move_step)%float
  else if direction =? "down" then
    z <- getitem current_target 2 ;;
    setitem current_target 2 (pymax 0.3 (z - move_step))%float
  else ret current_target.

Definition drone_move (direction : string) : M Result :=
  try_except
    (pos <- get_positions ;;
     match snd pos with
     | Some current_target =>
         current_target <- step_target direction current_target ;;
         move_result <- move_target current_target ;;
         if move_result then ret (success ("Moving " ++ direction))
         else ret (error ("Move target failed for " ++ direction))
     | None => ret (error ("Cannot get target position for " ++ direction))
     end)
    (fun e => ret (error ("Move failed - check CoppeliaSim: " ++ exn_str e))).

(** ** [MultimediaDroneSystem.execute_voice_command] *)

Definition unknown_message (command : string) : string :=
  "Unknown command: '" ++ command
  ++ "'. Try: take off, land, forward, back, left, right, up, down, stop".

Definition execute_voice_command (command : string) : M Result :=
  let command := strip (lower command) in
  s <- get_self ;;
  if negb (connected s) then ret (error "Drone not connected")
  else
    try_except
      (if any_in ["take off"; "takeoff"; "lift off"] command then drone_takeoff
       else if any_in ["land"; "landing"] command then drone_land
       else if any_in ["forward"; "ahead"] command then drone_move "forward"
       else if any_in ["back"; "backward"] command then drone_move "backward"
       else if contains "left" command then drone_move "left"
       else if contains "right" command then drone_move "right"
       else if contains "up" command then drone_move "up"
       else if contains "down" command then drone_move "down"
       else if any_in ["stop"; "halt"; "hover"] command then
         ret (success "Drone stopped (hovering)")
       else if contains "for" command then drone_move "forward"
       else if contains "lef" command then drone_move "left"
       else if contains "righ" command || contains "write" command then
         drone_move "right"
       else ret (error (unknown_message command)))
      (fun e => ret (error ("Command execution failed: " ++ exn_str e))).

(** What each action of the normalizer does: the branch bodies of
    [execute_voice_command]. *)
Definition direction_name (d : Direction) : string :=
  match d with
  | Forward => "forward"
  | Backward => "backward"
  | Left => "left"
  | Right => "right"
  | Up => "up"
  | Down => "down"
  end.

Definition perform (a : Action) : M Result :=
  match a with
  | TakeOff => drone_takeoff
  | Land => drone_land
  | Move d => drone_move (direction_name d)
  | Hover => ret (success "Drone stopped (hovering)")
  | Unknown text => ret (error (unknown_message text))
  end.

(** ** The two command paths *)

Definition emit (e : Emit) : M unit :=
  modify (fun s => with_emitted (emitted s ++ [e]) s).

Definition count_command (command : string) (st : Stats) : Stats :=
  {| connected_clients := connected_clients st;
     total_commands := total_commands st + 1;
     successful_commands := successful_commands st;
     stats_last_command := command;
     drone_status := drone_status st |}.

Definition count_success (st : Stats) : Stats :=
  {| connected_clients := connected_clients st;
     total_commands := total_commands st;
     successful_commands := successful_commands st + 1;
     stats_last_command := stats_last_command st;
     drone_status := drone_status st |}.

(** The [if command:] branch of the voice loop: run the recognised command,
    update the statistics, notify the web clients. *)
Definition voice_submit (command : string) : M unit :=
  result <- execute_voice_command command ;;
  modify (with_last_command command) ;;;
  modify (fun s => with_stats (count_command command (stats s)) s) ;;;
  s <- get_self ;;
  if status result =? "success" then
    modify (fun s => with_stats (count_success (stats s)) s) ;;;
    if socketio_available s then
      emit {| ev_event := "command_executed"; ev_command := command;
              ev_status := "success"; ev_message := message result |}
    else ret tt
  else
    if socketio_available s then
      emit {| ev_event := "command_executed"; ev_command := command;
              ev_status := "error"; ev_message := message result |}
    else ret tt.

(** The [manual_command] socket handler; [data] is the value under the key
    ['command'] of the received dict, if the key is there. *)
Definition handle_manual_command (data : option string) : M unit :=
  let command := strip (lower (match data with Some c => c | None => "" end)) in
  if truthy command then
    result <- execute_voice_command command ;;
    emit {| ev_event := "command_result"; ev_command := command;
            ev_status := status result; ev_message := message result |}
  else ret tt.

(** ** The recognition loop of [start_voice_control] *)

(** What one call of [recognizer.recognize_google(audio, ...)] does. *)
Inductive Transcription :=
| Heard (text : string)
| UnknownValueError
| RequestError (msg : string)
| OtherFailure (e : exn).

(** What [recognizer.listen(source, timeout=2, phrase_time_limit=4)] does: it
    returns an audio clip, times out, or raises something else.  A clip is
    known by what the speech service answers on the first, second, ... call
    made with it. *)
Inductive Listen :=
| Audio (transcribe : nat -> Transcription)
| WaitTimeoutError
| ListenFailure (e : exn).

Definition max_attempts : nat := 2.
Definition max_consecutive_errors : nat := 5.

Definition is_None {A} (x : option A) : bool :=
  match x with None => true | Some _ => false end.

(** The inner [while recognition_attempts < max_attempts and command is None]
    loop.  The result is [None] when [fuel] iterations were not enough,
    otherwise how the loop ended (the value of [command], or the exception
    that left it) and the final [recognition_attempts]. *)
Fixpoint recognition_loop (fuel : nat) (transcribe : nat -> Transcription)
    (recognition_attempts : nat) (command : option string)
    : option (outcome (option string) * nat) :=
  if (recognition_attempts <? max_attempts)%nat && is_None command then
    match fuel with
    | O => None
    | S fuel' =>
        let recognition_attempts := S recognition_attempts in
        match transcribe recognition_attempts with
        | Heard text =>
            let command := strip (lower text) in
            if truthy command then Some (Ret (Some command), recognition_attempts)
            else recognition_loop fuel' transcribe recognition_attempts (Some command)
        | UnknownValueError =>
            recognition_loop fuel' transcribe recognition_attempts command
        | RequestError _ => Some (Ret command, recognition_attempts)
        | OtherFailure e => Some (Raise e, recognition_attempts)
        end
    end
  else Some (Ret command, recognition_attempts).

(** The loop on one clip, from [command = None], [recognition_attempts = 0]. *)
Definition recognize (transcribe : nat -> Transcription)
    : option (outcome (option string) * nat) :=
  recognition_loop max_attempts transcribe 0 None.

(** The [except Exception] handler of the voice loop; [recalibrated] tells
    whether [adjust_for_ambient_noise] went through when it is tried. *)
Definition on_voice_error (recalibrated : bool) (consecutive_errors : nat) : nat :=
  let consecutive_errors := S consecutive_errors in
  if (max_consecutive_errors <=? consecutive_errors)%nat then
    if recalibrated then 0 else consecutive_errors
  else consecutive_errors.

(** One pass of the body of [while self.voice_listening]; the result is the
    new value of the local [consecutive_errors] ([None]: the inner loop ran
    out of fuel). *)
Definition voice_iteration (heard : Listen) (recalibrated : bool)
    (consecutive_errors : nat) : M (option nat) :=
  match heard with
  | WaitTimeoutError => ret (Some consecutive_errors)
  | ListenFailure _ => ret (Some (on_voice_error recalibrated consecutive_errors))
  | Audio transcribe =>
      match recognize transcribe with
      | None => ret None
      | Some (Raise _, _) =>
          ret (Some (on_voice_error recalibrated consecutive_errors))
      | Some (Ret command, _) =>
          match command with
          | Some text =>
              if truthy text then
                try_except
                  (voice_submit text ;;; ret (Some 0))
                  (fun _ => ret (Some (on_voice_error recalibrated 0)))
              else ret (Some consecutive_errors)
          | None => ret (Some consecutive_errors)
          end
      end
  end.

(** ** The frame buffer: [current_frame] under [frame_lock] *)

Section FrameBuffer.

Variable Frame : Type.

(** The threads that touch the buffer: [video_capture_loop], and one
    [generate_video_frames] generator per streaming client. *)
Inductive Thread :=
| Capture
| Client (n : nat).

Definition Thread_eqb (a b : Thread) : bool :=
  match a, b with
  | Capture, Capture => true
  | Client n, Client m => (n =? m)%nat
  | _, _ => false
  end.

Record Buffer := {
  current_frame : option Frame;
  frame_lock : option Thread
}.

Definition empty_buffer : Buffer :=
  {| current_frame := None; frame_lock := None |}.

(** The steps of the two [with self.frame_lock:] blocks.  [Publish f] is
    [self.current_frame = frame]; [ReadLatest n] is the client's test and
    [self.current_frame.copy()]. *)
Inductive Op :=
| Acquire (t : Thread)
| Release (t : Thread)
| Publish (f : Frame)
| ReadLatest (n : nat).

Definition holds (t : Thread) (b : Buffer) : bool :=
  match frame_lock b with
  | Some t' => Thread_eqb t t'
  | None => false
  end.

(** One step of a schedule: the buffer after it and the frame a read
    copied; [None] when the thread cannot take that step there (the lock is
    taken, or the thread is outside its [with] block). *)
Definition step (b : Buffer) (o : Op) : option (Buffer * list (option Frame)) :=
  match o with
  | Acquire t =>
      if is_None (frame_lock b)
      then Some ({| current_frame := current_frame b; frame_lock := Some t |}, [])
      else None
  | Release t =>
      if holds t b
      then Some ({| current_frame := current_frame b; frame_lock := None |}, [])
      else None
  | Publish f =>
      if holds Capture b
      then Some ({| current_frame := Some f; frame_lock := frame_lock b |}, [])
      else None
  | ReadLatest n =>
      if holds (Client n) b then Some (b, [current_frame b]) else None
  end.

(** A whole schedule: the final buffer and what the reads returned, in
    order. *)
Fixpoint run (b : Buffer) (ops : list Op) : option (Buffer * list (option Frame)) :=
  match ops with
  | [] => Some (b, [])
  | o :: rest =>
      match step b o with
      | None => None
      | Some (b', seen) =>
          match run b' rest with
          | None => None
          | Some (b'', seen') => Some (b'', seen ++ seen')
          end
      end
  end.

(** The frame of the last [Publish] of a schedule, [held] if it has none. *)
Fixpoint latest (held : option Frame) (ops : list Op) : option Frame :=
  match ops with
  | [] => held
  | Publish f :: rest => latest (Some f) rest
  | _ :: rest => latest held rest
  end.

(** What the reads of a schedule must return: each one the frame of the
    last [Publish] before it. *)
Fixpoint expected_reads (held : option Frame) (ops : list Op) : list (option Frame) :=
  match ops with
  | [] => []
  | Publish f :: rest => expected_reads (Some f) rest
  | ReadLatest _ :: rest => held :: expected_reads held rest
  | _ :: rest => expected_reads held rest
  end.

Fixpoint published (ops : list Op) : list Frame :=
  match ops with
  | [] => []
  | Publish f :: rest => f :: published rest
  | _ :: rest => published rest
  end.

(** How many reads a schedule makes. *)
Fixpoint reads_in (ops : list Op) : nat :=
  match ops with
  | [] => 0
  | ReadLatest _ :: rest => S (reads_in rest)
  | _ :: rest => reads_in rest
  end.

(** ** [video_capture_loop] *)

(** One turn of [while self.streaming]: the value of the flag the test
    reads, and what [get_drone_camera_frame()] returns if the body runs. *)
Record Tick := {
  streaming : bool;
  camera : option Frame
}.

(** The loop over the ticks it lives through: the frames it publishes, in
    order, the buffer contents it leaves, and whether it is still running
    when the ticks end. *)
Fixpoint video_capture_loop (ticks : list Tick) (held : option Frame)
    : list Frame * option Frame * bool :=
  match ticks with
  | [] => ([], held, true)
  | t :: rest =>
      if streaming t then
        match camera t with
        | Some frame =>
            let '(pubs, final, running) := video_capture_loop rest (Some frame) in
            (frame :: pubs, final, running)
        | None => video_capture_loop rest held
        end
      else ([], held, false)
  end.

End FrameBuffer.

Arguments Acquire {Frame} t.
Arguments Release {Frame} t.
Arguments Publish {Frame} f.
Arguments ReadLatest {Frame} n.
Arguments empty_buffer {Frame}.
Arguments run {Frame} b ops.
Arguments step {Frame} b o.
Arguments latest {Frame} held ops.
Arguments expected_reads {Frame} held ops.
Arguments published {Frame} ops.
Arguments reads_in {Frame} ops.
Arguments video_capture_loop {Frame} ticks held.
Arguments current_frame {Frame} b.
Arguments frame_lock {Frame} b.
Arguments streaming {Frame} t.
Arguments camera {Frame} t.
Arguments Build_Tick {Frame} streaming camera.
Arguments Build_Buffer {Frame} current_frame frame_lock.

(** ** Sample states *)

(** A simulator holding a drone (handle 1) and a target (handle 2); every
    other handle is unknown to it, and no write fails. *)
Definition sample_sim (drone target : ndarray) : Sim :=
  {| object_position := fun h =>
       if (h =? 1)%Z then Ret drone
       else if (h =? 2)%Z then Ret target
       else Raise (Exception "object does not exist");
     set_failure := fun _ _ => None |}.

(** The same scene behind a link whose writes are refused. *)
Definition readonly_sim (drone target : ndarray) : Sim :=
  {| object_position := object_position (sample_sim drone target);
     set_failure := fun _ _ => Some (Exception "link closed") |}.

Definition fresh_stats : Stats :=
  {| connected_clients := 0; total_commands := 0; successful_commands := 0;
     stats_last_command := ""; drone_status := "disconnected" |}.

(** [self] right after [__init__], over a given simulator. *)
Definition fresh_self (is_connected : bool) (x : Sim) : Self :=
  {| connected := is_connected; drone_handle := Some 1%Z;
     target_handle := Some 2%Z; sim := x; link_calls := [];
     stats := fresh_stats; last_command := "";
     socketio_available := true; emitted := [] |}.

Definition sample_self (target : ndarray) : Self :=
  fresh_self true (sample_sim [0%float; 0%float; 0.5%float] target).

(** A link on which every call raises. *)
Definition failing_sim : Sim :=
  {| object_position := fun _ => Raise (Exception "connection lost");
     set_failure := fun _ _ => Some (Exception "connection lost") |}.

(** A schedule with two clients: client 0 reads before anything is
    published, the capture loop publishes frame 7, client 1 reads, the loop
    publishes frame 8, client 0 reads again. *)
Definition sample_schedule : list (Op nat) :=
  [ Acquire (Client 0); ReadLatest 0; Release (Client 0);
    Acquire Capture; Publish 7; Release Capture;
    Acquire (Client 1); ReadLatest 1; Release (Client 1);
    Acquire Capture; Publish 8; Release Capture;
    Acquire (Client 0); ReadLatest 0; Release (Client 0) ].

(** ** Connection and object discovery ([connect], [setup_objects],
    [setup_camera]) *)

(** The part of the remote API that discovery uses: [getObject] resolves a
    name or a path to a handle, or raises. *)
Record Scene := {
  getObject : string -> outcome Z;
  getObjectsInTree : Z -> outcome (list Z);
  getObjectType : Z -> outcome Z;
  object_visionsensor_type : Z
}.

(** The three handles of [self]. *)
Record Handles := {
  h_drone : option Z;
  h_target : option Z;
  h_camera : option Z
}.

Definition drone_names : list string :=
  ["Quadcopter"; "Drone"; "quadcopter"; "Quadricopter"].
Definition target_names : list string := ["target"; "Target"; "goal"; "Goal"].
Definition camera_names : list string :=
  ["VisionSensor"; "Camera"; "camera"; "vision_sensor"].

(** The [for name in names] loop with its nested [try]: the plain name,
    then the name as a path, then the next name.  [handle] is the value the
    attribute had before the loop, kept when nothing resolves. *)
Fixpoint find_object (scene : Scene) (names : list string) (handle : option Z)
    : option Z :=
  match names with
  | [] => handle
  | name :: rest =>
      match getObject scene name with
      | Ret h => Some h
      | Raise _ =>
          match getObject scene ("/" ++ name) with
          | Ret h => Some h
          | Raise _ => find_object scene rest handle
          end
      end
  end.

(** The [for child in children] loop of [setup_camera]. *)
Fixpoint find_vision_sensor (scene : Scene) (children : list Z) : option Z :=
  match children with
  | [] => None
  | child :: rest =>
      match getObjectType scene child with
      | Ret obj_type =>
          if (obj_type =? object_visionsensor_type scene)%Z then Some child
          else find_vision_sensor scene rest
      | Raise _ => find_vision_sensor scene rest
      end
  end.

(** [setup_camera]: the new value of [vision_sensor_handle]. *)
Definition setup_camera (scene : Scene) (drone camera : option Z) : option Z :=
  match find_object scene camera_names camera with
  | Some h => Some h
  | None =>
      match drone with
      | Some dh =>
          match getObjectsInTree scene dh with
          | Ret children => find_vision_sensor scene children
          | Raise _ => None
          end
      | None => None
      end
  end.

(** [setup_objects]: the value returned and the handles it leaves. *)
Definition setup_objects (scene : Scene) (hs : Handles) : bool * Handles :=
  let drone := find_object scene drone_names (h_drone hs) in
  match drone with
  | None =>
      (false, {| h_drone := drone; h_target := h_target hs;
                 h_camera := h_camera hs |})
  | Some _ =>
      let target := find_object scene target_names (h_target hs) in
      match target with
      | None =>
          (false, {| h_drone := drone; h_target := target;
                     h_camera := h_camera hs |})
      | Some _ =>
          (true, {| h_drone := drone; h_target := target;
                    h_camera := setup_camera scene drone (h_camera hs) |})
      end
  end.

(** What [connect] leaves: the value it returns, [self.connected] and the
    handles. *)
Record Connection := {
  connect_result : bool;
  now_connected : bool;
  handles : Handles
}.

Definition no_handles : Handles :=
  {| h_drone := None; h_target := None; h_camera := None |}.

(** [connect], called by [__init__] with [connected = False] and the three
    handles [None].  [simulation_mode] is the module flag [SIMULATION_MODE];
    [client] is what [RemoteAPIClient()] followed by
    [client.getObject('sim')] gives: the remote API, or an exception. *)
Definition connect (simulation_mode : bool) (client : outcome Scene) : Connection :=
  if negb simulation_mode then
    {| connect_result := false; now_connected := false; handles := no_handles |}
  else
    match client with
    | Raise _ =>
        {| connect_result := false; now_connected := false;
           handles := no_handles |}
    | Ret scene =>
        let '(ok, hs) := setup_objects scene no_handles in
        {| connect_result := ok; now_connected := true; handles := hs |}
    end.

(** [self] after [__init__] over the connection [c] and the simulator [x]. *)
Definition self_after_connect (c : Connection) (x : Sim) : Self :=
  {| connected := now_connected c; drone_handle := h_drone (handles c);
     target_handle := h_target (handles c); sim := x; link_calls := [];
     stats := fresh_stats; last_command := "";
     socketio_available := true; emitted := [] |}.

Definition with_connected (x : bool) (s : Self) : Self :=
  {| connected := x; drone_handle := drone_handle s;
     target_handle := target_handle s; sim := sim s;
     link_calls := link_calls s; stats := stats s;
     last_command := last_command s;
     socketio_available := socketio_available s; emitted := emitted s |}.

(** [disconnect] *)
Definition disconnect : M unit :=
  s <- get_self ;;
  if connected s then modify (with_connected false) else ret tt.

(** The dict [get_drone_status] returns: the three keys, or, from its
    [except] branch, the key ['connected'] alone. *)
Inductive DroneStatus :=
| Status (is_connected : bool) (drone_position target_position : option ndarray)
| StatusFallback.

Definition get_drone_status : M DroneStatus :=
  try_except
    (pos <- get_positions ;;
     s <- get_self ;;
     ret (Status (connected s) (fst pos) (snd pos)))
    (fun _ => ret StatusFallback).

(** ** Web clients ([handle_connect], [handle_disconnect]) *)

Definition with_clients (n : Z) (st : Stats) : Stats :=
  {| connected_clients := n;
     total_commands := total_commands st;
     successful_commands := successful_commands st;
     stats_last_command := stats_last_command st;
     drone_status := drone_status st |}.

(** The [connect] socket handler; the value is the [status_update] payload
    sent back to the client: its message and [drone_connected]. *)
Definition handle_connect : M (string * bool) :=
  modify (fun s => with_stats
                     (with_clients (connected_clients (stats s) + 1) (stats s)) s) ;;;
  s <- get_self ;;
  ret ("Connected to drone system", connected s).

(** The [disconnect] socket handler. *)
Definition handle_disconnect : M unit :=
  modify (fun s => with_stats
                     (with_clients (Z.max 0 (connected_clients (stats s) - 1))
                        (stats s)) s).

Inductive ClientEvent := Connects | Disconnects.

Definition handle_client_event (e : ClientEvent) : M unit :=
  match e with
  | Connects => handle_connect ;;; ret tt
  | Disconnects => handle_disconnect
  end.

Fixpoint handle_client_events (events : list ClientEvent) : M unit :=
  match events with
  | [] => ret tt
  | e :: rest => handle_client_event e ;;; handle_client_events rest
  end.

(** ** The voice loop over several passes *)

(** [while self.voice_listening] over the passes it lives through, each
    given by what [listen] does and whether a recalibration would go
    through; the value is the final [consecutive_errors]. *)
Fixpoint voice_loop (passes : list (Listen * bool)) (consecutive_errors : nat)
    : M (option nat) :=
  match passes with
  | [] => ret (Some consecutive_errors)
  | (heard, recalibrated) :: rest =>
      r <- voice_iteration heard recalibrated consecutive_errors ;;
      match r with
      | Some n => voice_loop rest n
      | None => ret None
      end
  end.

(** ** Camera frames ([get_camera_image], [get_drone_camera_frame]) *)

(** A pixel of a three-channel uint8 image, and a frame as its rows. *)
Definition Pixel : Type := Byte.byte * Byte.byte * Byte.byte.
Definition Image : Type := list (list Pixel).

(** [get_camera_image]: what [sim.getVisionSensorImg(handle)] returned, or
    [(None, None)]. *)
Definition get_camera_image (camera : option Z)
    (getVisionSensorImg : Z -> outcome (list Byte.byte * list nat))
    : option (list Byte.byte) * option (list nat) :=
  match camera with
  | Some h =>
      match getVisionSensorImg h with
      | Ret (img, resolution) => (Some img, Some resolution)
      | Raise _ => (None, None)
      end
  | None => (None, None)
  end.

(** Bytes three by three; [None] when the count is not a multiple of 3. *)
Fixpoint pixels_of (data : list Byte.byte) : option (list Pixel) :=
  match data with
  | [] => Some []
  | a :: b :: c :: rest => option_map (cons (a, b, c)) (pixels_of rest)
  | _ => None
  end.

(** [height] rows of [width] pixels; [None] when the pixels do not fill
    them exactly. *)
Fixpoint rows_of (height width : nat) (px : list Pixel) : option Image :=
  match height with
  | O => match px with [] => Some [] | _ => None end
  | S height' =>
      if (length px <? width)%nat then None
      else option_map (cons (firstn width px))
             (rows_of height' width (skipn width px))
  end.

(** [np.frombuffer(img_data, dtype=np.uint8).reshape((height, width, 3))];
    [None] stands for the [ValueError] of a size that does not fit. *)
Definition reshape (height width : nat) (img_data : list Byte.byte) : option Image :=
  match pixels_of img_data with
  | Some px => rows_of height width px
  | None => None
  end.

(** [cv2.flip(frame, 0)]: the rows in reverse order. *)
Definition flip_vertical (frame : Image) : Image := rev frame.

(** [cv2.cvtColor(frame, cv2.COLOR_RGB2BGR)]: first and third channel
    exchanged. *)
Definition rgb2bgr (frame : Image) : Image :=
  map (map (fun p : Pixel => let '(r, g, b) := p in (b, g, r))) frame.

Definition nonempty {A} (l : list A) : bool :=
  match l with [] => false | _ => true end.

Definition get_drone_camera_frame (camera : option Z)
    (getVisionSensorImg : Z -> outcome (list Byte.byte * list nat))
    : option Image :=
  match get_camera_image camera getVisionSensorImg with
  | (Some img_data, Some resolution) =>
      if nonempty img_data && nonempty resolution then
        match nth_error resolution 1, nth_error resolution 0 with
        | Some height, Some width =>
            match reshape height width img_data with
            | Some frame => Some (rgb2bgr (flip_vertical frame))
            | None => None
            end
        | _, _ => None
        end
      else None
  | _ => None
  end.

(** The bytes of an RGB buffer that [get_drone_camera_frame] would turn
    into [frame]: rows bottom-up, channels exchanged back. *)
Definition buffer_of (frame : Image) : list Byte.byte :=
  concat (map (fun row => concat (map (fun p : Pixel =>
                                          let '(b, g, r) := p in [r; g; b]) row))
            (rev frame)).

(** ** Sample scenes and sensors *)

(** A scene whose drone is known only by the path ["/Drone"] (handle 11)
    and whose target is ["Goal"] (handle 12), with no camera. *)
Definition path_scene : Scene :=
  {| getObject := fun name =>
       if name =? "/Drone" then Ret 11%Z
       else if name =? "Goal" then Ret 12%Z
       else Raise (Exception "object does not exist");
     getObjectsInTree := fun _ => Ret [11; 30; 31]%Z;
     getObjectType := fun h => if (h =? 31)%Z then Ret 9%Z else Ret 0%Z;
     object_visionsensor_type := 9%Z |}.

(** A scene with a drone and no target. *)
Definition targetless_scene : Scene :=
  {| getObject := fun name =>
       if name =? "Quadcopter" then Ret 11%Z
       else Raise (Exception "object does not exist");
     getObjectsInTree := fun _ => Ret [];
     getObjectType := fun _ => Ret 0%Z;
     object_visionsensor_type := 9%Z |}.

(** A sensor returning a 2 by 2 image, rows top-down, pixels RGB. *)
Definition sample_sensor (h : Z) : outcome (list Byte.byte * list nat) :=
  Ret ([Byte.x01; Byte.x02; Byte.x03;  Byte.x04; Byte.x05; Byte.x06;
        Byte.x07; Byte.x08; Byte.x09;  Byte.x0a; Byte.x0b; Byte.x0c],
       [2; 2]%nat).

(** ** Vocabulary of the properties *)

(** [m] never raises, and what it returns satisfies [P]. *)
Definition returns {A} (m : M A) (P : A -> Prop) : Prop :=
  forall s, exists a s', m s = (Ret a, s') /\ P a.

(** Whenever [m] returns, the value satisfies [P]. *)
Definition ensures {A} (m : M A) (P : A -> Prop) : Prop :=
  forall s, match m s with
            | (Ret a, _) => P a
            | (Raise _, _) => True
            end.

(** A well-formed result dict: the status is one of the two literals and
    the message is not empty. *)
Definition well_formed (r : Result) : Prop :=
  (status r = "success" \/ status r = "error") /\ message r <> "".

(** [s'] differs from [s] at most in the simulator and the link log. *)
Definition same_session (s s' : Self) : Prop :=
  connected s' = connected s
  /\ drone_handle s' = drone_handle s
  /\ target_handle s' = target_handle s
  /\ stats s' = stats s
  /\ last_command s' = last_command s
  /\ socketio_available s' = socketio_available s
  /\ emitted s' = emitted s.

Definition link_only {A} (m : M A) : Prop :=
  forall s, same_session s (snd (m s)).

(** The result dict of an operation whose write was attempted. *)
Definition outcome_of (moved : bool) (ok failed : string) : Result :=
  if moved then success ok else error failed.

(** The target [drone_move] is expected to write after reading
    [[x; y; z]]: one step of [move_step] along the axis of the direction,
    the descent stopping at 0.3. *)
Definition stepped (d : Direction) (x y z : float) : ndarray :=
  match d with
  | Forward => [x + move_step; y; z]
  | Backward => [x - move_step; y; z]
  | Left => [x; y + move_step; z]
  | Right => [x; y - move_step; z]
  | Up => [x; y; z + move_step]
  | Down => [x; y; pymax 0.3 (z - move_step)]
  end%float.

(** A service answer that the loop absorbs without a command. *)
Definition no_transcript (t : Transcription) : bool :=
  match t with
  | UnknownValueError | RequestError _ => true
  | Heard _ | OtherFailure _ => false
  end.

(** What one candidate name resolves to: the plain name if the scene knows
    it, else the name as a path. *)
Definition resolve (scene : Scene) (name : string) : option Z :=
  match getObject scene name with
  | Ret h => Some h
  | Raise _ =>
      match getObject scene ("/" ++ name) with
      | Ret h => Some h
      | Raise _ => None
      end
  end.

(** [child] is a vision sensor as far as [getObjectType] tells. *)
Definition is_vision_sensor (scene : Scene) (child : Z) : bool :=
  match getObjectType scene child with
  | Ret obj_type => (obj_type =? object_visionsensor_type scene)%Z
  | Raise _ => false
  end.

(** The link calls one command may add to the log: nothing, the read of
    the drone alone (it raised), both reads, or both reads followed by one
    write to the target. *)
Inductive command_calls (s : Self) : list LinkCall -> Prop :=
| calls_none : command_calls s []
| calls_drone_read dh :
    truthy_handle (drone_handle s) = Some dh ->
    command_calls s [GetObjectPosition dh]
| calls_both_reads dh th :
    truthy_handle (drone_handle s) = Some dh ->
    target_handle s = Some th ->
    command_calls s [GetObjectPosition dh; GetObjectPosition th]
| calls_reads_write dh th p :
    truthy_handle (drone_handle s) = Some dh ->
    target_handle s = Some th ->
    command_calls s [GetObjectPosition dh; GetObjectPosition th;
                     SetObjectPosition th p].

(** Every character of the text is whitespace. *)
Fixpoint all_space (s : string) : bool :=
  match s with
  | EmptyString => true
  | String c s' => isspace c && all_space s'
  end.

(** How many [connect] events a list holds. *)
Definition connects_in (events : list ClientEvent) : nat :=
  length (filter (fun e => match e with Connects => true | Disconnects => false end)
            events).

(** The rules of the source without the phrases "landing" and "backward". *)
Definition shortened_rules : list Rule :=
  [ takeoff_rule;
    (["land"], Land);
    (["forward"; "ahead"], Move Forward);
    (["back"], Move Backward);
    (["left"], Move Left);
    (["right"], Move Right);
    (["up"], Move Up);
    (["down"], Move Down);
    hover_rule ] ++ fuzzy_rules.

(** The three bytes of a pixel, first channel first. *)
Definition rgb_bytes (p : Pixel) : list Byte.byte :=
  let '(r, g, b) := p in [r; g; b].

(** The index of the coordinate an action reads or assigns in the target
    position: x for forward and backward, y for left and right, z for the
    others that move the target. *)
Definition written_coordinate (a : Action) : option nat :=
  match a with
  | TakeOff | Land => Some 2%nat
  | Move Forward | Move Backward => Some 0%nat
  | Move Left | Move Right => Some 1%nat
  | Move Up | Move Down => Some 2%nat
  | Hover | Unknown _ => None
  end.

(** What a successful operation has done: both reads returned, the
    position read has the coordinate the operation uses, and the one write
    it made did not raise. *)
Definition wrote_target (s : Self) (i : nat) (l : list LinkCall) : Prop :=
  exists dh th d t p,
    target_handle s = Some th
    /\ object_position (sim s) dh = Ret d
    /\ object_position (sim s) th = Ret t
    /\ (i < length t)%nat
    /\ l = [GetObjectPosition dh; GetObjectPosition th; SetObjectPosition th p]
    /\ set_failure (sim s) th p = None.

(* ================================================================== *)
(** * Properties *)

(** ** Substring search *)

Lemma prefix_app (p s : string) :
  String.prefix p s = true <-> exists b, s = (p ++ b)%string.
Proof.
  revert s; induction p as [|c p IH]; intros s.
  - destruct s; simpl; (split; [intros _; eexists; reflexivity | reflexivity]).
  - destruct s as [|d s]; simpl.
    + split; [discriminate | intros [b Hb]; discriminate].
    + destruct (ascii_dec c d) as [->|Hne].
      * rewrite IH. split; intros [b Hb]; exists b; [now subst | now inversion Hb].
      * split; [discriminate | intros [b Hb]; inversion Hb; congruence].
Qed.

Lemma contains_unfold (sub s : string) :
  contains sub s =
  if String.prefix sub s then true
  else match s with
       | EmptyString => false
       | String _ s' => contains sub s'
       end.
Proof. destruct s; reflexivity. Qed.

(** [contains] is Python's [in]: an occurrence somewhere in the text. *)
Lemma contains_spec (sub s : string) :
  contains sub s = true <-> exists a b, s = (a ++ sub ++ b)%string.
Proof.
  induction s as [|c s IH]; rewrite contains_unfold;
    destruct (String.prefix sub _) eqn:Hp.
  - split; [intros _ | reflexivity].
    apply prefix_app in Hp as [b Hb]. exists EmptyString, b. exact Hb.
  - split; [discriminate|]. intros [a [b Hab]].
    destruct a; [|discriminate]. cbn [append] in Hab.
    assert (String.prefix sub EmptyString = true) by (apply prefix_app; eauto).
    congruence.
  - split; [intros _ | reflexivity].
    apply prefix_app in Hp as [b Hb]. exists EmptyString, b. exact Hb.
  - rewrite IH. split.
    + intros [a [b Hab]]. exists (String c a), b. cbn [append]. now rewrite Hab.
    + intros [a [b Hab]]. destruct a as [|c' a]; cbn [append] in Hab.
      * assert (String.prefix sub (String c s) = true)
          by (apply prefix_app; eauto).
        congruence.
      * inversion Hab. eauto.
Qed.

(** ** The character tables of [lower] and [strip] *)

(** The code points below 256 that [str.isspace] accepts. *)
Lemma isspace_code_points :
  filter (fun n => isspace (ascii_of_nat n)) (seq 0 256)
  = [9; 10; 11; 12; 13; 28; 29; 30; 31; 32; 133; 160]%nat.
Proof. vm_compute. reflexivity. Qed.

(** The code points below 256 that [str.lower] changes: A to Z, and U+00C0
    to U+00DE without U+00D7; each moves up by 32. *)
Lemma lower_char_code_points :
  filter (fun n => negb (nat_of_ascii (lower_char (ascii_of_nat n)) =? n)%nat)
    (seq 0 256)
  = (seq 65 26 ++ seq 192 23 ++ seq 216 7)%list
  /\ forall c, lower_char c = c
               \/ nat_of_ascii (lower_char c) = (nat_of_ascii c + 32)%nat.
Proof.
  split; [vm_compute; reflexivity|].
  intros c. destruct c as [[] [] [] [] [] [] [] []];
    first [left; reflexivity | right; reflexivity].
Qed.

Example strip_no_break_space :
  strip (String (ascii_of_nat 160) (" up" ++ String (ascii_of_nat 133) "")) = "up".
Proof. reflexivity. Qed.

Example lower_e_acute :
  lower (String (ascii_of_nat 201) "COLE") = String (ascii_of_nat 233) "cole".
Proof. reflexivity. Qed.

(** ** The normalizer *)

Lemma any_in_one (p c : string) : any_in [p] c = contains p c.
Proof. unfold any_in; simpl. apply orb_false_r. Qed.

Lemma any_in_two (p q c : string) :
  any_in [p; q] c = contains p c || contains q c.
Proof. unfold any_in; simpl. now rewrite orb_false_r. Qed.

(** The [if]/[elif] chain is first match over the rules in source order. *)
Lemma classify_first_match (command : string) :
  classify command = first_match source_rules command.
Proof.
  unfold classify, source_rules, takeoff_rule, land_rule, hover_rule,
    directional_rules, fuzzy_rules.
  cbn [app first_match].
  rewrite !any_in_one, any_in_two with (p := "righ").
  reflexivity.
Qed.

Lemma first_match_no_match (rules : list Rule) (command : string) :
  matches rules command = false ->
  first_match rules command = Unknown command.
Proof.
  induction rules as [|[phrases a] rules IH]; simpl; [reflexivity|].
  intros H. apply orb_false_iff in H as [H1 H2].
  rewrite H1. auto.
Qed.

Lemma first_match_app (r1 r2 : list Rule) (command : string) :
  first_match (r1 ++ r2) command =
  if matches r1 command then first_match r1 command
  else first_match r2 command.
Proof.
  induction r1 as [|[phrases a] r1 IH]; simpl; [reflexivity|].
  destruct (any_in phrases command); simpl; auto.
Qed.

Lemma first_match_Hover_directional (command : string) :
  first_match directional_rules command <> Hover.
Proof.
  unfold directional_rules; simpl.
  repeat match goal with |- context [if ?b then _ else _] => destruct b end;
    discriminate.
Qed.

Lemma matches_one (r : Rule) (command : string) :
  matches [r] command = any_in (fst r) command.
Proof. unfold matches; simpl. apply orb_false_r. Qed.

(** [execute_voice_command] is the connection guard, then [classify], then
    [perform], inside the outer [try]. *)
Lemma execute_voice_command_dispatch (command : string) (s : Self) :
  execute_voice_command command s =
  if connected s then
    try_except (perform (classify (strip (lower command))))
      (fun e => ret (error ("Command execution failed: " ++ exn_str e))) s
  else (Ret (error "Drone not connected"), s).
Proof.
  unfold execute_voice_command, bind, get_self.
  destruct (connected s); [|reflexivity]. cbn [negb].
  unfold try_except, classify.
  repeat match goal with
         | |- context [if ?b then _ else _] => destruct b; [reflexivity|]
         end.
  reflexivity.
Qed.

(** C1 (as amended): the normalizer is total and deterministic, and its
    result is the first match over the rules in the order the source tests
    them: take-off set, landing set, the six directional sets, then the
    stop/halt/hover set, then the fuzzy fallbacks, else [Unknown] with the
    text.  It differs from first match in the listed order (hover set ahead
    of the directional sets) exactly on the inputs that contain a hover
    phrase and a directional phrase and no take-off or landing phrase; there
    the source answers the directional move, not [Hover]. *)
Theorem C1_normalizer_first_match_in_source_order (command : string) :
  classify command = first_match source_rules command
  /\ (classify command <> listed_normalize command <->
      any_in (fst hover_rule) command = true
      /\ matches directional_rules command = true
      /\ matches [takeoff_rule; land_rule] command = false)
  /\ (classify command <> listed_normalize command ->
      classify command = first_match directional_rules command
      /\ listed_normalize command = Hover).
Proof.
  assert (Hsrc : classify command =
            if matches [takeoff_rule; land_rule] command
            then first_match [takeoff_rule; land_rule] command
            else if matches directional_rules command
                 then first_match directional_rules command
                 else if any_in (fst hover_rule) command then Hover
                      else first_match fuzzy_rules command).
  { rewrite classify_first_match. unfold source_rules.
    rewrite !first_match_app, matches_one.
    unfold hover_rule; cbn [first_match fst].
    destruct (any_in ["stop"; "halt"; "hover"] command); reflexivity. }
  assert (Hlst : listed_normalize command =
            if matches [takeoff_rule; land_rule] command
            then first_match [takeoff_rule; land_rule] command
            else if any_in (fst hover_rule) command then Hover
                 else if matches directional_rules command
                      then first_match directional_rules command
                      else first_match fuzzy_rules command).
  { unfold listed_normalize, listed_rules.
    change ([takeoff_rule; land_rule; hover_rule] ++ directional_rules ++ fuzzy_rules)
      with ([takeoff_rule; land_rule] ++ [hover_rule] ++ directional_rules ++ fuzzy_rules).
    rewrite !first_match_app, matches_one.
    unfold hover_rule; cbn [first_match fst].
    destruct (any_in ["stop"; "halt"; "hover"] command); reflexivity. }
  split; [apply classify_first_match|].
  rewrite Hsrc, Hlst.
  pose proof (first_match_Hover_directional command) as Hdir.
  destruct (matches [takeoff_rule; land_rule] command);
    destruct (any_in (fst hover_rule) command);
    destruct (matches directional_rules command);
    repeat split; try tauto; try congruence;
    try (intros [? [? ?]]; discriminate).
Qed.

(** The normalizer on a few utterances. *)
Example take_off_now_please :
  classify (strip (lower "Take off now please ")) = TakeOff.
Proof. reflexivity. Qed.

Example go_write_a_bit : classify "go write a bit" = Move Right.
Proof. reflexivity. Qed.

Example right_is_right : classify "right" = Move Right.
Proof. reflexivity. Qed.

Example banana : classify "banana" = Unknown "banana".
Proof. reflexivity. Qed.

Example stop_going_left : classify "stop going left" = Move Left.
Proof. reflexivity. Qed.

(** C1, counterexample: ["hover up"] contains the hover phrase, and the
    normalizer answers [Move Up]; run on a connected drone hovering at
    height 1, the command moves the target up. *)
Lemma C1_hover_up_moves_up :
  any_in ["stop"; "halt"; "hover"] "hover up" = true
  /\ classify "hover up" = Move Up
  /\ classify "hover up" <> Hover
  /\ listed_normalize "hover up" = Hover
  /\ fst (execute_voice_command "hover up" (sample_self [0; 0; 1]%float))
     = Ret (success "Moving up").
Proof.
  repeat split; try reflexivity. discriminate.
Qed.

(** ** Reasoning about methods *)

Lemma ensures_ret {A} (a : A) (P : A -> Prop) : P a -> ensures (ret a) P.
Proof. intros H s. exact H. Qed.

Lemma ensures_raise {A} (e : exn) (P : A -> Prop) : ensures (raise e) P.
Proof. intros s. exact I. Qed.

Lemma ensures_bind {A B} (m : M A) (k : A -> M B) (P : B -> Prop) :
  (forall a, ensures (k a) P) -> ensures (bind m k) P.
Proof.
  intros H s. unfold bind. destruct (m s) as [[a|e] s']; [apply H | exact I].
Qed.

Lemma ensures_if {A} (b : bool) (m1 m2 : M A) (P : A -> Prop) :
  ensures m1 P -> ensures m2 P -> ensures (if b then m1 else m2) P.
Proof. destruct b; auto. Qed.

Lemma returns_ret {A} (a : A) (P : A -> Prop) : P a -> returns (ret a) P.
Proof. intros H s. exists a, s. split; [reflexivity | exact H]. Qed.

Lemma returns_if {A} (b : bool) (m1 m2 : M A) (P : A -> Prop) :
  returns m1 P -> returns m2 P -> returns (if b then m1 else m2) P.
Proof. destruct b; auto. Qed.

Lemma returns_bind {A B} (m : M A) (k : A -> M B) (Q : A -> Prop) (P : B -> Prop) :
  returns m Q -> (forall a, Q a -> returns (k a) P) -> returns (bind m k) P.
Proof.
  intros Hm Hk s. unfold bind.
  destruct (Hm s) as [a [s' [E Ha]]]. rewrite E. apply Hk, Ha.
Qed.

(** A [try] whose handlers all return never raises. *)
Lemma returns_try_except {A} (body : M A) (handler : exn -> M A) (P : A -> Prop) :
  ensures body P -> (forall e, returns (handler e) P) ->
  returns (try_except body handler) P.
Proof.
  intros Hb Hh s. unfold try_except. specialize (Hb s).
  destruct (body s) as [[a|e] s']; [exists a, s'; auto | apply Hh].
Qed.

Lemma well_formed_success (c : ascii) (msg : string) :
  well_formed (success (String c msg)).
Proof. split; [left; reflexivity | discriminate]. Qed.

Lemma well_formed_error (c : ascii) (msg : string) :
  well_formed (error (String c msg)).
Proof. split; [right; reflexivity | discriminate]. Qed.

Create HintDb drone.
#[local] Hint Resolve well_formed_success well_formed_error : drone.

Ltac step_ensures :=
  repeat match goal with
         | |- ensures (bind _ _) _ => apply ensures_bind; intros
         | |- ensures (ret _) _ => apply ensures_ret; cbn [append]; auto with drone
         | |- ensures (raise _) _ => apply ensures_raise
         | |- ensures (if _ then _ else _) _ => apply ensures_if
         | |- ensures (match ?x with _ => _ end) _ => destruct x
         end.

Lemma drone_takeoff_returns : returns drone_takeoff well_formed.
Proof.
  apply returns_try_except.
  - step_ensures.
  - intros e. apply returns_ret. auto with drone.
Qed.

Lemma drone_land_returns : returns drone_land well_formed.
Proof.
  apply returns_try_except.
  - step_ensures.
  - intros e. apply returns_ret. auto with drone.
Qed.

Lemma drone_move_returns (direction : string) :
  returns (drone_move direction) well_formed.
Proof.
  apply returns_try_except.
  - step_ensures.
  - intros e. apply returns_ret. cbn [append]. auto with drone.
Qed.

Lemma perform_returns (a : Action) : returns (perform a) well_formed.
Proof.
  destruct a; cbn [perform].
  - apply drone_takeoff_returns.
  - apply drone_land_returns.
  - apply drone_move_returns.
  - apply returns_ret. auto with drone.
  - apply returns_ret. unfold unknown_message. cbn [append]. auto with drone.
Qed.

Lemma execute_voice_command_returns (command : string) :
  returns (execute_voice_command command) well_formed.
Proof.
  intros s. rewrite execute_voice_command_dispatch.
  destruct (connected s).
  - unfold try_except.
    destruct (perform_returns (classify (strip (lower command))) s)
      as [r [s' [E Hr]]].
    rewrite E. eauto.
  - eexists _, _. split; [reflexivity | auto with drone].
Qed.

(** ** What the drone operations leave alone *)

Lemma same_session_refl (s : Self) : same_session s s.
Proof. repeat split. Qed.

Lemma same_session_trans (s1 s2 s3 : Self) :
  same_session s1 s2 -> same_session s2 s3 -> same_session s1 s3.
Proof.
  unfold same_session. intros H1 H2.
  repeat match goal with H : _ /\ _ |- _ => destruct H end.
  repeat split; congruence.
Qed.

Lemma link_only_ret {A} (a : A) : link_only (ret a).
Proof. intros s. apply same_session_refl. Qed.

Lemma link_only_raise {A} (e : exn) : link_only (@raise A e).
Proof. intros s. apply same_session_refl. Qed.

Lemma link_only_get_self : link_only get_self.
Proof. intros s. apply same_session_refl. Qed.

Lemma link_only_bind {A B} (m : M A) (k : A -> M B) :
  link_only m -> (forall a, link_only (k a)) -> link_only (bind m k).
Proof.
  intros Hm Hk s. unfold bind. specialize (Hm s).
  destruct (m s) as [[a|e] s']; cbn [snd] in *; [|exact Hm].
  eapply same_session_trans; [exact Hm | apply Hk].
Qed.

Lemma link_only_try_except {A} (body : M A) (handler : exn -> M A) :
  link_only body -> (forall e, link_only (handler e)) ->
  link_only (try_except body handler).
Proof.
  intros Hb Hh s. unfold try_except. specialize (Hb s).
  destruct (body s) as [[a|e] s']; cbn [snd] in *; [exact Hb|].
  eapply same_session_trans; [exact Hb | apply Hh].
Qed.

Lemma link_only_log_call (c : LinkCall) : link_only (log_call c).
Proof. intros s. repeat split. Qed.

Lemma link_only_write (h : Z) (p : ndarray) :
  link_only (modify (fun s => with_sim (sim_write h p (sim s)) s)).
Proof. intros s. repeat split. Qed.

Ltac step_link_only :=
  repeat match goal with
         | |- link_only (bind _ _) => apply link_only_bind; intros
         | |- link_only (try_except _ _) => apply link_only_try_except; intros
         | |- link_only (ret _) => apply link_only_ret
         | |- link_only (raise _) => apply link_only_raise
         | |- link_only get_self => apply link_only_get_self
         | |- link_only (log_call _) => apply link_only_log_call
         | |- link_only (modify _) => apply link_only_write
         | |- link_only (if ?b then _ else _) => destruct b
         | |- link_only (match ?x with _ => _ end) => destruct x
         end.

Lemma link_only_getitem (a : ndarray) (i : nat) : link_only (getitem a i).
Proof. unfold getitem. step_link_only. Qed.

Lemma link_only_setitem (a : ndarray) (i : nat) (v : float) :
  link_only (setitem a i v).
Proof. unfold setitem. step_link_only. Qed.

Lemma link_only_sim_getObjectPosition (h : Z) :
  link_only (sim_getObjectPosition h).
Proof. unfold sim_getObjectPosition. step_link_only. Qed.

Lemma link_only_sim_setObjectPosition (h : Z) (p : ndarray) :
  link_only (sim_setObjectPosition h p).
Proof. unfold sim_setObjectPosition. step_link_only. Qed.

#[local] Hint Resolve link_only_getitem link_only_setitem
  link_only_sim_getObjectPosition link_only_sim_setObjectPosition : drone.

Lemma link_only_get_positions : link_only get_positions.
Proof. unfold get_positions. step_link_only; auto with drone. Qed.

Lemma link_only_move_target (position : ndarray) :
  link_only (move_target position).
Proof. unfold move_target. step_link_only; auto with drone. Qed.

#[local] Hint Resolve link_only_get_positions link_only_move_target : drone.

Lemma link_only_step_target (direction : string) (a : ndarray) :
  link_only (step_target direction a).
Proof. unfold step_target. step_link_only; auto with drone. Qed.

#[local] Hint Resolve link_only_step_target : drone.

Lemma link_only_drone_takeoff : link_only drone_takeoff.
Proof. unfold drone_takeoff. step_link_only; auto with drone. Qed.

Lemma link_only_drone_land : link_only drone_land.
Proof. unfold drone_land. step_link_only; auto with drone. Qed.

Lemma link_only_drone_move (direction : string) :
  link_only (drone_move direction).
Proof. unfold drone_move. step_link_only; auto with drone. Qed.

Lemma link_only_perform (a : Action) : link_only (perform a).
Proof.
  destruct a; cbn [perform];
    auto using link_only_drone_takeoff, link_only_drone_land,
      link_only_drone_move, link_only_ret.
Qed.

Lemma link_only_execute_voice_command (command : string) :
  link_only (execute_voice_command command).
Proof.
  intros s. rewrite execute_voice_command_dispatch.
  destruct (connected s); [|apply same_session_refl].
  apply link_only_try_except; [apply link_only_perform|].
  intros e. apply link_only_ret.
Qed.

(** ** Statistics *)

Lemma voice_submit_eq (command : string) (s s1 : Self) (r : Result) :
  execute_voice_command command s = (Ret r, s1) ->
  exists s',
    voice_submit command s = (Ret tt, s')
    /\ stats s' =
       (if status r =? "success"
        then count_success (count_command command (stats s1))
        else count_command command (stats s1))
    /\ last_command s' = command
    /\ link_calls s' = link_calls s1.
Proof.
  intros E. unfold voice_submit, bind. rewrite E.
  unfold modify, get_self, emit, modify. cbn [socketio_available with_stats with_last_command].
  destruct (status r =? "success"); destruct (socketio_available s1);
    eexists; (split; [reflexivity|]); repeat split.
Qed.

(** C2 (as amended): a command run by the voice loop adds one to
    [total_commands], adds one to [successful_commands] exactly when the
    result's status is "success", and records the text as the last command,
    whatever the result.  A command run by the [manual_command] handler
    leaves the statistics and [last_command] as they were. *)
Theorem C2_voice_path_counts_manual_path_does_not
    (command : string) (data : option string) (s : Self) :
  (exists r s1 s',
      execute_voice_command command s = (Ret r, s1)
      /\ voice_submit command s = (Ret tt, s')
      /\ total_commands (stats s') = (total_commands (stats s) + 1)%Z
      /\ successful_commands (stats s') =
         (successful_commands (stats s)
          + (if String.eqb (status r) "success" then 1 else 0))%Z
      /\ stats_last_command (stats s') = command
      /\ last_command s' = command)
  /\ stats (snd (handle_manual_command data s)) = stats s
  /\ last_command (snd (handle_manual_command data s)) = last_command s.
Proof.
  split.
  - destruct (execute_voice_command_returns command s) as [r [s1 [E _]]].
    destruct (voice_submit_eq command s s1 r E) as [s' [Ev [Hst [Hl _]]]].
    pose proof (link_only_execute_voice_command command s) as Hs.
    rewrite E in Hs. cbn [snd] in Hs.
    destruct Hs as [_ [_ [_ [Hstats _]]]].
    exists r, s1, s'. rewrite Hst, Hstats.
    repeat split; auto;
      destruct (status r =? "success"); cbn; try reflexivity; lia.
  - unfold handle_manual_command.
    set (c := strip (lower match data with Some c => c | None => "" end)).
    destruct (truthy c); [|split; reflexivity].
    unfold bind.
    destruct (execute_voice_command_returns c s) as [r [s1 [E _]]].
    pose proof (link_only_execute_voice_command c s) as Hs.
    rewrite E in *. cbn [snd] in Hs.
    destruct Hs as [_ [_ [_ [Hstats [Hl _]]]]].
    split; assumption.
Qed.

(** C2, counterexample: "stop" sent through the [manual_command] handler
    to a connected drone succeeds, and the three statistics stay at their
    initial values. *)
Lemma C2_manual_stop_is_not_counted :
  let s := sample_self [0; 0; 1]%float in
  let s' := snd (handle_manual_command (Some "stop") s) in
  emitted s' = [ {| ev_event := "command_result"; ev_command := "stop";
                    ev_status := "success";
                    ev_message := "Drone stopped (hovering)" |} ]
  /\ total_commands (stats s') = 0%Z
  /\ successful_commands (stats s') = 0%Z
  /\ stats_last_command (stats s') = ""
  /\ total_commands (stats s') <> (total_commands (stats s) + 1)%Z.
Proof.
  cbv zeta. repeat split. discriminate.
Qed.

(** C4: with [self.connected] false, every command returns the error
    result at once: [self] is left untouched, so no link call is made, and
    neither command path adds to [successful_commands]. *)
Theorem C4_disconnected_fails_without_link_call (command : string) (s : Self) :
  connected s = false ->
  execute_voice_command command s = (Ret (error "Drone not connected"), s)
  /\ link_calls (snd (execute_voice_command command s)) = link_calls s
  /\ successful_commands (stats (snd (voice_submit command s)))
     = successful_commands (stats s)
  /\ successful_commands (stats (snd (handle_manual_command (Some command) s)))
     = successful_commands (stats s).
Proof.
  intros Hc.
  assert (E : forall c, execute_voice_command c s
                        = (Ret (error "Drone not connected"), s)).
  { intros c. rewrite execute_voice_command_dispatch, Hc. reflexivity. }
  split; [apply E|]. split; [rewrite E; reflexivity|]. split.
  - destruct (voice_submit_eq command s s _ (E command)) as [s' [Ev [Hst _]]].
    rewrite Ev. cbn [snd]. rewrite Hst. reflexivity.
  - unfold handle_manual_command.
    destruct (truthy _); [|reflexivity].
    unfold bind. rewrite E. reflexivity.
Qed.

(** C4 at a disconnected drone and the command "take off". *)
Lemma C4_disconnected_takeoff_witness :
  let s := fresh_self false (sample_sim [0; 0; 0.5]%float [0; 0; 0.5]%float) in
  execute_voice_command "take off" s = (Ret (error "Drone not connected"), s)
  /\ link_calls (snd (execute_voice_command "take off" s)) = link_calls s
  /\ successful_commands (stats (snd (voice_submit "take off" s)))
     = successful_commands (stats s)
  /\ successful_commands (stats (snd (handle_manual_command (Some "take off") s)))
     = successful_commands (stats s).
Proof.
  exact (C4_disconnected_fails_without_link_call "take off"
           (fresh_self false (sample_sim [0; 0; 0.5]%float [0; 0; 0.5]%float))
           eq_refl).
Defined.

(** ** Reading and writing the target *)

Lemma try_except_returns {A} (m : M A) (h : exn -> M A) (P : A -> Prop) (s : Self) :
  returns m P -> try_except m h s = m s.
Proof.
  intros Hm. unfold try_except. destruct (Hm s) as [a [s' [E _]]].
  rewrite E. reflexivity.
Qed.

Lemma try_bind_read {A} (k : option ndarray * option ndarray -> M A)
    (h : exn -> M A) (s s1 : Self) (pos : option ndarray * option ndarray) :
  get_positions s = (Ret pos, s1) ->
  try_except (bind get_positions k) h s = try_except (k pos) h s1.
Proof. intros E. unfold try_except, bind. rewrite E. reflexivity. Qed.

(** On a connected drone, [execute_voice_command] is [perform] of the
    normalized command. *)
Lemma execute_voice_command_connected (command : string) (s : Self) :
  connected s = true ->
  execute_voice_command command s = perform (classify (strip (lower command))) s.
Proof.
  intros Hc. rewrite execute_voice_command_dispatch, Hc.
  eapply try_except_returns, perform_returns.
Qed.

Lemma truthy_handle_Some (h : option Z) (z : Z) :
  truthy_handle h = Some z -> h = Some z.
Proof.
  destruct h as [z'|]; cbn; [|discriminate].
  destruct (z' =? 0)%Z; congruence.
Qed.

(** [get_positions] never raises, returns both positions or neither, and
    touches nothing but the link log. *)
Lemma get_positions_cases (s : Self) :
  exists s1,
    ((get_positions s = (Ret (None, None), s1))
     \/ exists dh th d t,
          get_positions s = (Ret (Some d, Some t), s1)
          /\ target_handle s = Some th
          /\ object_position (sim s) th = Ret t
          /\ link_calls s1
             = link_calls s ++ [GetObjectPosition dh; GetObjectPosition th])
    /\ sim s1 = sim s /\ target_handle s1 = target_handle s.
Proof.
  unfold get_positions, bind, get_self, try_except.
  destruct (truthy_handle (drone_handle s)) as [dh|] eqn:Hd;
    [|exists s; split; [left; reflexivity | split; reflexivity]].
  destruct (truthy_handle (target_handle s)) as [th|] eqn:Ht;
    [|exists s; split; [left; reflexivity | split; reflexivity]].
  apply truthy_handle_Some in Ht.
  unfold sim_getObjectPosition, bind, log_call, modify, get_self. cbn.
  destruct (object_position (sim s) dh) as [d|e] eqn:Ed; cbn;
    [|eexists; split; [left; reflexivity | split; reflexivity]].
  destruct (object_position (sim s) th) as [t|e] eqn:Et; cbn;
    [|eexists; split; [left; reflexivity | split; reflexivity]].
  eexists. split.
  - right. exists dh, th, d, t. split; [reflexivity|]. cbn.
    rewrite <- app_assoc. auto.
  - split; reflexivity.
Qed.

Lemma get_positions_read (s s1 : Self) (pos : option ndarray * option ndarray) :
  get_positions s = (Ret pos, s1) ->
  sim s1 = sim s /\ target_handle s1 = target_handle s
  /\ (forall t, snd pos = Some t -> exists th, target_handle s = Some th).
Proof.
  intros E. destruct (get_positions_cases s) as [s1' [H [Hsim Hth]]].
  destruct H as [H | [dh [th [d [t [H [Ht _]]]]]]];
    rewrite H in E; inversion E; subst; repeat split; auto.
  - intros t0 H0; discriminate.
  - intros t0 _. eauto.
Qed.

(** [move_target] never raises; with a target handle it makes exactly one
    write call, and answers [True] when the call did not raise. *)
Lemma move_target_write (position : ndarray) (s : Self) (th : Z) :
  target_handle s = Some th ->
  exists s2,
    move_target position s = (Ret (is_None (set_failure (sim s) th position)), s2)
    /\ link_calls s2 = link_calls s ++ [SetObjectPosition th position]
    /\ (set_failure (sim s) th position = None ->
        object_position (sim s2) th = Ret position).
Proof.
  intros Ht. unfold move_target, bind, get_self. rewrite Ht.
  unfold try_except, sim_setObjectPosition, bind, log_call, modify, get_self.
  cbn. destruct (set_failure (sim s) th position) eqn:Ef; cbn.
  - eexists. repeat split. discriminate.
  - eexists. repeat split. cbn. now rewrite Z.eqb_refl.
Qed.

Lemma step_target_stepped (d : Direction) (x y z : float) :
  step_target (direction_name d) [x; y; z] = ret (stepped d x y z).
Proof. destruct d; reflexivity. Qed.

(** An operation that read the target [[x; y; z]], computed [p] from it
    and handed [p] to [move_target]. *)
Lemma write_after_read (s s1 : Self) (d : option ndarray) (t p : ndarray)
    (ok failed : string) (th : Z) :
  get_positions s = (Ret (d, Some t), s1) ->
  target_handle s = Some th ->
  exists s2,
    bind (move_target p)
      (fun moved => if moved then ret (success ok) else ret (error failed)) s1
    = (Ret (outcome_of (is_None (set_failure (sim s) th p)) ok failed), s2)
    /\ link_calls s2 = link_calls s1 ++ [SetObjectPosition th p]
    /\ (set_failure (sim s) th p = None -> object_position (sim s2) th = Ret p).
Proof.
  intros E Ht.
  destruct (get_positions_read s s1 _ E) as [Hsim [Hth _]].
  rewrite <- Hth in Ht.
  destruct (move_target_write p s1 th Ht) as [s2 [Em [Hl Ho]]].
  rewrite Hsim in Em, Ho.
  exists s2. unfold bind. rewrite Em.
  split; [|split; assumption].
  destruct (is_None (set_failure (sim s) th p)); reflexivity.
Qed.

Lemma drone_takeoff_read (s s1 : Self) (d : option ndarray) (x y z : float) (th : Z) :
  get_positions s = (Ret (d, Some [x; y; z]), s1) ->
  target_handle s = Some th ->
  let p := [x; y; pymax 1 z] in
  exists s2,
    drone_takeoff s
    = (Ret (outcome_of (is_None (set_failure (sim s) th p))
              "Taking off" "Takeoff failed"), s2)
    /\ link_calls s2 = link_calls s1 ++ [SetObjectPosition th p]
    /\ (set_failure (sim s) th p = None -> object_position (sim s2) th = Ret p).
Proof.
  intros E Ht p.
  destruct (write_after_read s s1 d _ p "Taking off" "Takeoff failed" th E Ht)
    as [s2 [Em H]].
  exists s2. split; [|exact H].
  unfold drone_takeoff, try_except.
  unfold bind at 1. rewrite E. cbn [snd].
  unfold getitem, setitem. cbn [nth_error length Nat.ltb Nat.leb update].
  unfold bind at 1. unfold ret at 1. unfold bind at 1. unfold ret at 1.
  fold p. rewrite Em. reflexivity.
Qed.

Lemma drone_land_read (s s1 : Self) (d : option ndarray) (x y z : float) (th : Z) :
  get_positions s = (Ret (d, Some [x; y; z]), s1) ->
  target_handle s = Some th ->
  let p := [x; y; 0.3%float] in
  exists s2,
    drone_land s
    = (Ret (outcome_of (is_None (set_failure (sim s) th p))
              "Landing" "Landing failed"), s2)
    /\ link_calls s2 = link_calls s1 ++ [SetObjectPosition th p]
    /\ (set_failure (sim s) th p = None -> object_position (sim s2) th = Ret p).
Proof.
  intros E Ht p.
  destruct (write_after_read s s1 d _ p "Landing" "Landing failed" th E Ht)
    as [s2 [Em H]].
  exists s2. split; [|exact H].
  unfold drone_land, try_except.
  unfold bind at 1. rewrite E. cbn [snd].
  unfold setitem. cbn [length Nat.ltb Nat.leb update].
  unfold bind at 1. unfold ret at 1.
  fold p. rewrite Em. reflexivity.
Qed.

Lemma drone_move_read (dir : Direction) (s s1 : Self) (d : option ndarray)
    (x y z : float) (th : Z) :
  get_positions s = (Ret (d, Some [x; y; z]), s1) ->
  target_handle s = Some th ->
  let p := stepped dir x y z in
  exists s2,
    drone_move (direction_name dir) s
    = (Ret (outcome_of (is_None (set_failure (sim s) th p))
              ("Moving " ++ direction_name dir)
              ("Move target failed for " ++ direction_name dir)), s2)
    /\ link_calls s2 = link_calls s1 ++ [SetObjectPosition th p]
    /\ (set_failure (sim s) th p = None -> object_position (sim s2) th = Ret p).
Proof.
  intros E Ht p.
  destruct (write_after_read s s1 d _ p ("Moving " ++ direction_name dir)
              ("Move target failed for " ++ direction_name dir) th E Ht)
    as [s2 [Em H]].
  exists s2. split; [|exact H].
  unfold drone_move, try_except.
  unfold bind at 1. rewrite E. cbn [snd].
  rewrite step_target_stepped.
  unfold bind at 1. unfold ret at 1.
  fold p. rewrite Em. reflexivity.
Qed.

(** When the read fails, nothing is written and the result is an error. *)
Lemma operations_without_read (s s1 : Self) (d : option ndarray) :
  get_positions s = (Ret (d, None), s1) ->
  drone_takeoff s = (Ret (error "Takeoff failed"), s1)
  /\ drone_land s = (Ret (error "Landing failed"), s1)
  /\ forall direction,
       drone_move direction s
       = (Ret (error ("Cannot get target position for " ++ direction)), s1).
Proof.
  intros E. unfold drone_takeoff, drone_land, drone_move, try_except, bind.
  rewrite E. cbn [snd]. repeat split.
Qed.

(** ** Take-off, landing and moves *)

(** C5: on a connected drone a take-off command runs [drone_takeoff] and a
    landing command runs [drone_land].  When the target read gives
    [[x; y; z]], take-off writes [[x; y; max(1.0, z)]] and landing writes
    [[x; y; 0.3]], each with one write call, and the result is a success
    exactly when that write did not raise; when the read fails the result
    is an error and nothing is written.  [max(1.0, 0.2)] is 1.0 and
    [max(1.0, 1.5)] is 1.5. *)
Theorem C5_takeoff_and_land_set_height (s : Self) :
  connected s = true ->
  (forall command,
      (classify (strip (lower command)) = TakeOff ->
       execute_voice_command command s = drone_takeoff s)
      /\ (classify (strip (lower command)) = Land ->
          execute_voice_command command s = drone_land s))
  /\ (forall s1 d x y z,
         get_positions s = (Ret (d, Some [x; y; z]), s1) ->
         exists th s2 s3,
           target_handle s = Some th
           /\ drone_takeoff s
              = (Ret (outcome_of
                        (is_None (set_failure (sim s) th [x; y; pymax 1 z]))
                        "Taking off" "Takeoff failed"), s2)
           /\ link_calls s2
              = link_calls s1 ++ [SetObjectPosition th [x; y; pymax 1 z]]
           /\ drone_land s
              = (Ret (outcome_of
                        (is_None (set_failure (sim s) th [x; y; 0.3%float]))
                        "Landing" "Landing failed"), s3)
           /\ link_calls s3
              = link_calls s1 ++ [SetObjectPosition th [x; y; 0.3%float]])
  /\ (forall s1 d,
         get_positions s = (Ret (d, None), s1) ->
         drone_takeoff s = (Ret (error "Takeoff failed"), s1)
         /\ drone_land s = (Ret (error "Landing failed"), s1))
  /\ pymax 1 0.2 = 1%float
  /\ pymax 1 1.5 = 1.5%float.
Proof.
  intros Hc. split; [|split; [|split]].
  - intros command.
    split; intros Ha; rewrite (execute_voice_command_connected _ _ Hc), Ha;
      reflexivity.
  - intros s1 d x y z E.
    destruct (get_positions_read s s1 _ E) as [_ [_ Hth]].
    destruct (Hth _ eq_refl) as [th Ht].
    destruct (drone_takeoff_read s s1 d x y z th E Ht) as [s2 [E2 [L2 _]]].
    destruct (drone_land_read s s1 d x y z th E Ht) as [s3 [E3 [L3 _]]].
    exists th, s2, s3. auto.
  - intros s1 d E.
    destruct (operations_without_read s s1 d E) as [H1 [H2 _]]. auto.
  - split; reflexivity.
Qed.

(** C5 at a connected drone whose target is at height 0.2: take-off writes
    height 1.0 and succeeds. *)
Lemma C5_takeoff_from_low_target_witness :
  let s := sample_self [0; 0; 0.2]%float in
  connected s = true
  /\ execute_voice_command "take off" s = drone_takeoff s
  /\ exists th s2 s3,
       target_handle s = Some th
       /\ drone_takeoff s
          = (Ret (outcome_of
                    (is_None (set_failure (sim s) th [0; 0; pymax 1 0.2]%float))
                    "Taking off" "Takeoff failed"), s2)
       /\ link_calls s2
          = link_calls (snd (get_positions s))
            ++ [SetObjectPosition th [0; 0; pymax 1 0.2]%float]
       /\ drone_land s
          = (Ret (outcome_of
                    (is_None (set_failure (sim s) th [0; 0; 0.3]%float))
                    "Landing" "Landing failed"), s3)
       /\ link_calls s3
          = link_calls (snd (get_positions s))
            ++ [SetObjectPosition th [0; 0; 0.3]%float].
Proof.
  intros s.
  pose (H := C5_takeoff_and_land_set_height s eq_refl).
  split; [reflexivity|]. split.
  - exact (proj1 (proj1 H "take off") eq_refl).
  - exact (proj1 (proj2 H) (snd (get_positions s)) _ _ _ _ eq_refl).
Defined.

(** What the two operations do on the sample drone. *)
Example takeoff_from_02 :
  link_calls (snd (drone_takeoff (sample_self [0; 0; 0.2]%float)))
  = [GetObjectPosition 1; GetObjectPosition 2;
     SetObjectPosition 2 [0; 0; 1]%float].
Proof. reflexivity. Qed.

Example takeoff_from_15 :
  link_calls (snd (drone_takeoff (sample_self [0; 0; 1.5]%float)))
  = [GetObjectPosition 1; GetObjectPosition 2;
     SetObjectPosition 2 [0; 0; 1.5]%float].
Proof. reflexivity. Qed.

Example takeoff_refused_write :
  fst (drone_takeoff (fresh_self true (readonly_sim [] [0; 0; 0.2]%float)))
  = Ret (error "Takeoff failed").
Proof. reflexivity. Qed.

(** C6: on a connected drone a command normalized to [Move dir] runs
    [drone_move]; when the target read gives [[x; y; z]] it writes, with one
    write call, the target moved by 0.2 along the axis of the direction
    (x for forward/backward, y for left/right, z for up), and for down the
    height [max(0.3, z - 0.2)]; the result is a success exactly when the
    write did not raise.  [max(0.3, 0.35 - 0.2)] is 0.3. *)
Theorem C6_move_steps_along_axis (s : Self) (dir : Direction) :
  connected s = true ->
  (forall command,
      classify (strip (lower command)) = Move dir ->
      execute_voice_command command s = drone_move (direction_name dir) s)
  /\ (forall s1 d x y z,
         get_positions s = (Ret (d, Some [x; y; z]), s1) ->
         exists th s2,
           target_handle s = Some th
           /\ drone_move (direction_name dir) s
              = (Ret (outcome_of
                        (is_None (set_failure (sim s) th (stepped dir x y z)))
                        ("Moving " ++ direction_name dir)
                        ("Move target failed for " ++ direction_name dir)), s2)
           /\ link_calls s2
              = link_calls s1 ++ [SetObjectPosition th (stepped dir x y z)])
  /\ move_step = 0.2%float
  /\ (forall x y z,
         stepped Down x y z = [x; y; pymax 0.3 (z - 0.2)]%float)
  /\ pymax 0.3 (0.35 - 0.2) = 0.3%float.
Proof.
  intros Hc. split; [|split; [|repeat split]].
  - intros command Ha.
    rewrite (execute_voice_command_connected _ _ Hc), Ha. reflexivity.
  - intros s1 d x y z E.
    destruct (get_positions_read s s1 _ E) as [_ [_ Hth]].
    destruct (Hth _ eq_refl) as [th Ht].
    destruct (drone_move_read dir s s1 d x y z th E Ht) as [s2 [E2 [L2 _]]].
    exists th, s2. auto.
Qed.

(** C6 at a connected drone whose target is at height 0.35: "down" writes
    height 0.3. *)
Lemma C6_down_to_floor_witness :
  let s := sample_self [0; 0; 0.35]%float in
  connected s = true
  /\ execute_voice_command "go down" s = drone_move "down" s
  /\ exists th s2,
       target_handle s = Some th
       /\ drone_move "down" s
          = (Ret (outcome_of
                    (is_None (set_failure (sim s) th (stepped Down 0 0 0.35)))
                    "Moving down" "Move target failed for down"), s2)
       /\ link_calls s2
          = link_calls (snd (get_positions s))
            ++ [SetObjectPosition th (stepped Down 0 0 0.35)].
Proof.
  intros s.
  pose (H := C6_move_steps_along_axis s Down eq_refl).
  split; [reflexivity|]. split.
  - exact (proj1 H "go down" eq_refl).
  - exact (proj1 (proj2 H) (snd (get_positions s)) _ _ _ _ eq_refl).
Defined.

Example down_from_035 :
  link_calls (snd (drone_move "down" (sample_self [0; 0; 0.35]%float)))
  = [GetObjectPosition 1; GetObjectPosition 2;
     SetObjectPosition 2 [0; 0; 0.3]%float].
Proof. reflexivity. Qed.

Example forward_from_origin :
  link_calls (snd (drone_move "forward" (sample_self [0; 0; 1]%float)))
  = [GetObjectPosition 1; GetObjectPosition 2;
     SetObjectPosition 2 [0.2; 0; 1]%float].
Proof. reflexivity. Qed.

(** ** Exceptions never leave [execute_voice_command] *)

(** [get_positions] when it returns positions: both reads were made and
    both returned. *)
Lemma get_positions_outcome (s : Self) :
  exists pos s1 l,
    get_positions s = (Ret pos, s1)
    /\ link_calls s1 = link_calls s ++ l
    /\ sim s1 = sim s /\ target_handle s1 = target_handle s
    /\ (pos = (None, None)
        \/ exists dh th d t,
             pos = (Some d, Some t)
             /\ target_handle s = Some th
             /\ object_position (sim s) dh = Ret d
             /\ object_position (sim s) th = Ret t
             /\ l = [GetObjectPosition dh; GetObjectPosition th]).
Proof.
  unfold get_positions, bind, get_self, try_except.
  destruct (truthy_handle (drone_handle s)) as [dh|] eqn:Hd.
  2:{ exists (None, None), s, []. rewrite app_nil_r. repeat split. auto. }
  destruct (truthy_handle (target_handle s)) as [th|] eqn:Ht.
  2:{ exists (None, None), s, []. rewrite app_nil_r. repeat split. auto. }
  apply truthy_handle_Some in Ht.
  unfold sim_getObjectPosition, bind, log_call, modify, get_self. cbn.
  destruct (object_position (sim s) dh) as [d|e] eqn:Ed; cbn.
  2:{ eexists (None, None), _, [GetObjectPosition dh]. repeat split. auto. }
  destruct (object_position (sim s) th) as [t|e] eqn:Et; cbn.
  2:{ eexists (None, None), _, [GetObjectPosition dh; GetObjectPosition th].
      split; [reflexivity|]. split; [cbn; now rewrite <- app_assoc|].
      repeat split. auto. }
  eexists (Some d, Some t), _, [GetObjectPosition dh; GetObjectPosition th].
  split; [reflexivity|]. split; [cbn; now rewrite <- app_assoc|].
  repeat split. right. exists dh, th, d, t. auto.
Qed.

(** The common shape of [drone_takeoff], [drone_land] and [drone_move]:
    read, compute the new target with [prep] (which uses coordinate [i]),
    write, all inside a [try] whose handler answers an error. *)
Lemma operation_outcome (prep : ndarray -> M ndarray) (i : nat)
    (ok failed noread : string) (h : exn -> M Result) (s : Self) :
  (forall e s', exists msg, h e s' = (Ret (error msg), s')) ->
  (forall t s', exists o, prep t s' = (o, s')
                          /\ ((length t <= i)%nat -> exists e, o = Raise e)) ->
  exists r s' l,
    try_except
      (bind get_positions (fun pos =>
         match snd pos with
         | Some t =>
             bind (prep t) (fun p =>
               bind (move_target p) (fun moved =>
                 if moved then ret (success ok) else ret (error failed)))
         | None => ret (error noread)
         end)) h s = (Ret r, s')
    /\ link_calls s' = link_calls s ++ l
    /\ (status r = "success" \/ status r = "error")
    /\ (status r = "success" -> wrote_target s i l).
Proof.
  intros Hh Hprep.
  destruct (get_positions_outcome s) as [pos [s1 [l [E [Hl [Hsim [Hth H]]]]]]].
  rewrite (try_bind_read _ _ _ _ _ E).
  destruct H as [-> | [dh [th [d [t [-> [Ht [Ed [Et ->]]]]]]]]]; cbn [snd].
  - exists (error noread), s1, l. split; [reflexivity|].
    split; [exact Hl|]. split; [right; reflexivity | discriminate].
  - unfold try_except, bind.
    destruct (Hprep t s1) as [o [Ep Hidx]]. rewrite Ep.
    destruct o as [p|e].
    + assert (Ht1 : target_handle s1 = Some th) by congruence.
      destruct (move_target_write p s1 th Ht1) as [s2 [Em [Hl2 _]]].
      rewrite Em, Hsim.
      exists (outcome_of (is_None (set_failure (sim s) th p)) ok failed), s2,
        [GetObjectPosition dh; GetObjectPosition th; SetObjectPosition th p].
      split; [destruct (is_None (set_failure (sim s) th p)); reflexivity|].
      split; [rewrite Hl2, Hl, <- app_assoc; reflexivity|].
      destruct (set_failure (sim s) th p) eqn:Ef; cbn.
      * split; [right; reflexivity | discriminate].
      * split; [left; reflexivity|]. intros _.
        exists dh, th, d, t, p. repeat split; auto.
        destruct (Nat.lt_ge_cases i (length t)) as [Hlt|Hge]; [exact Hlt|].
        destruct (Hidx Hge) as [e He]. discriminate.
    + destruct (Hh e s1) as [msg Em]. rewrite Em.
      exists (error msg), s1, [GetObjectPosition dh; GetObjectPosition th].
      split; [reflexivity|]. split; [exact Hl|].
      split; [right; reflexivity | discriminate].
Qed.

(** Indexing and index assignment touch nothing and raise exactly out of
    range. *)
Lemma getitem_outcome (a : ndarray) (i : nat) (s : Self) :
  exists o, getitem a i s = (o, s)
            /\ ((length a <= i)%nat -> exists e, o = Raise e).
Proof.
  unfold getitem. destruct (nth_error a i) eqn:E.
  - eexists. split; [reflexivity|]. intros H.
    apply nth_error_None in H. congruence.
  - eexists. split; [reflexivity|]. eauto.
Qed.

Lemma setitem_outcome (a : ndarray) (i : nat) (v : float) (s : Self) :
  exists o, setitem a i v s = (o, s)
            /\ ((length a <= i)%nat -> exists e, o = Raise e).
Proof.
  unfold setitem. destruct (i <? length a)%nat eqn:E.
  - eexists. split; [reflexivity|]. intros H.
    apply Nat.ltb_lt in E. lia.
  - eexists. split; [reflexivity|]. eauto.
Qed.

Lemma get_then_set_outcome (a : ndarray) (i : nat) (f : float -> float) (s : Self) :
  exists o, bind (getitem a i) (fun v => setitem a i (f v)) s = (o, s)
            /\ ((length a <= i)%nat -> exists e, o = Raise e).
Proof.
  unfold bind. destruct (getitem_outcome a i s) as [o [E H]]. rewrite E.
  destruct o as [v|e]; [apply setitem_outcome|].
  eexists. split; [reflexivity|]. eauto.
Qed.

Lemma step_target_outcome (d : Direction) (t : ndarray) (s : Self) :
  forall i, written_coordinate (Move d) = Some i ->
  exists o, step_target (direction_name d) t s = (o, s)
            /\ ((length t <= i)%nat -> exists e, o = Raise e).
Proof.
  intros i Hi. destruct d; cbn in Hi; inversion Hi; subst i;
    cbn [direction_name]; unfold step_target; cbn [String.eqb Ascii.eqb Bool.eqb];
    apply get_then_set_outcome.
Qed.

(** Every action that moves the target succeeds only by writing it. *)
Lemma perform_outcome (a : Action) (s : Self) :
  exists r s' l,
    perform a s = (Ret r, s')
    /\ link_calls s' = link_calls s ++ l
    /\ (status r = "success" \/ status r = "error")
    /\ (status r = "success" ->
        a = Hover
        \/ exists i, written_coordinate a = Some i /\ wrote_target s i l).
Proof.
  destruct a as [| |d| |text]; cbn [perform].
  - destruct (operation_outcome
                (fun t => bind (getitem t 2) (fun z => setitem t 2 (pymax 1 z)))
                2 "Taking off" "Takeoff failed" "Takeoff failed"
                (fun _ => ret (error "Takeoff failed - check CoppeliaSim")) s)
      as [r [s' [l [E [Hl [Hs Hw]]]]]].
    { intros e s'. eexists. reflexivity. }
    { intros t s'. apply get_then_set_outcome. }
    exists r, s', l. split; [|split; [exact Hl|split; [exact Hs|]]].
    + rewrite <- E. unfold drone_takeoff, try_except, bind.
      destruct (get_positions s) as [[pos|e] s1]; [|reflexivity].
      destruct (snd pos) as [t|]; [|reflexivity].
      destruct (getitem t 2 s1) as [[z|e] s2]; [|reflexivity].
      destruct (setitem t 2 (pymax 1 z) s2) as [[p|e] s3]; reflexivity.
    + intros H. right. exists 2%nat. split; [reflexivity | exact (Hw H)].
  - destruct (operation_outcome
                (fun t => setitem t 2 0.3%float)
                2 "Landing" "Landing failed" "Landing failed"
                (fun _ => ret (error "Landing failed - check CoppeliaSim")) s)
      as [r [s' [l [E [Hl [Hs Hw]]]]]].
    { intros e s'. eexists. reflexivity. }
    { intros t s'. apply setitem_outcome. }
    exists r, s', l. split; [exact E|]. split; [exact Hl|]. split; [exact Hs|].
    intros H. right. exists 2%nat. split; [reflexivity | exact (Hw H)].
  - destruct (written_coordinate (Move d)) as [i|] eqn:Hi;
      [|destruct d; discriminate].
    destruct (operation_outcome
                (step_target (direction_name d)) i
                ("Moving " ++ direction_name d)
                ("Move target failed for " ++ direction_name d)
                ("Cannot get target position for " ++ direction_name d)
                (fun e => ret (error ("Move failed - check CoppeliaSim: "
                                      ++ exn_str e))) s)
      as [r [s' [l [E [Hl [Hs Hw]]]]]].
    { intros e s'. eexists. reflexivity. }
    { intros t s'. apply step_target_outcome. exact Hi. }
    exists r, s', l. split; [exact E|]. split; [exact Hl|]. split; [exact Hs|].
    intros H. right. exists i. split; [reflexivity | exact (Hw H)].
  - exists (success "Drone stopped (hovering)"), s, [].
    rewrite app_nil_r. repeat split; auto.
  - exists (error (unknown_message text)), s, [].
    rewrite app_nil_r. repeat split; auto. discriminate.
Qed.

(** C9: for every input string and every state of [self] and of the
    simulator behind the link, [execute_voice_command] returns: it never
    raises, and the dict it returns has status "success" or "error" (two
    different literals) and a message that is not empty.  Every exception on
    the way ends in an error result: the result is an error whenever a
    position read the command made raised, whenever the write it made
    raised, and whenever the target position read has no coordinate at the
    index the command uses (the [IndexError] of numpy).  A success is
    returned only for a hover command or after a write to the target that
    did not raise. *)
Theorem C9_execute_voice_command_never_raises (command : string) (s : Self) :
  exists r s' l,
    execute_voice_command command s = (Ret r, s')
    /\ (status r = "success" \/ status r = "error")
    /\ "success" <> "error"
    /\ message r <> ""
    /\ link_calls s' = link_calls s ++ l
    /\ (forall h e,
           In (GetObjectPosition h) l ->
           object_position (sim s) h = Raise e -> status r = "error")
    /\ (forall h p e,
           In (SetObjectPosition h p) l ->
           set_failure (sim s) h p = Some e -> status r = "error")
    /\ (forall th t i,
           connected s = true ->
           target_handle s = Some th ->
           object_position (sim s) th = Ret t ->
           written_coordinate (classify (strip (lower command))) = Some i ->
           (length t <= i)%nat -> status r = "error")
    /\ (status r = "success" ->
        classify (strip (lower command)) = Hover
        \/ exists th p, In (SetObjectPosition th p) l
                        /\ set_failure (sim s) th p = None).
Proof.
  destruct (execute_voice_command_returns command s) as [r [s' [E [Hs Hm]]]].
  assert (Hsucc : exists l,
             link_calls s' = link_calls s ++ l
             /\ (status r = "success" ->
                 classify (strip (lower command)) = Hover
                 \/ exists i,
                      written_coordinate (classify (strip (lower command))) = Some i
                      /\ wrote_target s i l)).
  { rewrite execute_voice_command_dispatch in E.
    destruct (connected s).
    - rewrite (try_except_returns _ _ _ s (perform_returns _)) in E.
      destruct (perform_outcome (classify (strip (lower command))) s)
        as [r' [s'' [l [E' [Hl [_ Hw]]]]]].
      rewrite E' in E. inversion E; subst. exists l. auto.
    - inversion E; subst. exists []. rewrite app_nil_r.
      split; [reflexivity | discriminate]. }
  destruct Hsucc as [l [Hl Hw]].
  assert (Herr : status r <> "success" -> status r = "error")
    by (destruct Hs; [contradiction | auto]).
  exists r, s', l. split; [exact E|]. split; [exact Hs|].
  split; [discriminate|]. split; [exact Hm|]. split; [exact Hl|].
  split; [|split; [|split]].
  - intros h e Hin Hr. apply Herr. intros Hsc.
    destruct (Hw Hsc) as [Hh | [i [_ [dh [th [d [t [p [_ [Ed [Et [_ [-> _]]]]]]]]]]]]].
    + rewrite execute_voice_command_dispatch in E. destruct (connected s).
      * rewrite (try_except_returns _ _ _ s (perform_returns _)), Hh in E.
        inversion E; subst. rewrite <- (app_nil_r (link_calls s')) in Hl at 1.
        apply app_inv_head in Hl. subst l. destruct Hin.
      * inversion E; subst. discriminate.
    + destruct Hin as [Hin | [Hin | [Hin | []]]];
        inversion Hin; subst; congruence.
  - intros h p e Hin Hf. apply Herr. intros Hsc.
    destruct (Hw Hsc) as [Hh | [i [_ [dh [th [d [t [q [_ [_ [_ [_ [-> Hn]]]]]]]]]]]]].
    + rewrite execute_voice_command_dispatch in E. destruct (connected s).
      * rewrite (try_except_returns _ _ _ s (perform_returns _)), Hh in E.
        inversion E; subst. rewrite <- (app_nil_r (link_calls s')) in Hl at 1.
        apply app_inv_head in Hl. subst l. destruct Hin.
      * inversion E; subst. discriminate.
    + destruct Hin as [Hin | [Hin | [Hin | []]]];
        inversion Hin; subst; congruence.
  - intros th t i _ Ht Et Hi Hlen. apply Herr. intros Hsc.
    destruct (Hw Hsc) as [Hh | [j [Hj [dh [th' [d [t' [q [Ht' [_ [Et' [Hlt _]]]]]]]]]]]].
    + rewrite Hh in Hi. discriminate.
    + rewrite Ht in Ht'. inversion Ht'; subst th'.
      rewrite Et in Et'. inversion Et'; subst t'.
      rewrite Hi in Hj. inversion Hj; subst j. lia.
  - intros Hsc.
    destruct (Hw Hsc) as [Hh | [i [_ [dh [th [d [t [p [_ [_ [_ [_ [-> Hn]]]]]]]]]]]]].
    + left. exact Hh.
    + right. exists th, p. split; [|exact Hn]. cbn. auto.
Qed.

(** The exception paths at work: a link whose reads raise, a link whose
    writes raise, and a position of two coordinates, on which [a[2]] raises
    inside [drone_move]. *)

Example up_when_reads_raise :
  execute_voice_command "up" (fresh_self true failing_sim)
  = (Ret (error "Cannot get target position for up"),
     with_link_calls [GetObjectPosition 1] (fresh_self true failing_sim)).
Proof. reflexivity. Qed.

Example left_when_writes_raise :
  fst (execute_voice_command "left"
         (fresh_self true (readonly_sim [] [0; 0; 1]%float)))
  = Ret (error "Move target failed for left").
Proof. reflexivity. Qed.

Example up_on_short_position :
  fst (execute_voice_command "up"
         (fresh_self true (sample_sim [] [0; 0]%float)))
  = Ret (error "Move failed - check CoppeliaSim: index 2 is out of bounds for axis 0 with size 2").
Proof. reflexivity. Qed.

Example takeoff_on_short_position :
  fst (execute_voice_command "take off"
         (fresh_self true (sample_sim [] [0; 0]%float)))
  = Ret (error "Takeoff failed - check CoppeliaSim").
Proof. reflexivity. Qed.

Example banana_is_unknown :
  fst (execute_voice_command "  Banana " (sample_self [0; 0; 1]%float))
  = Ret (error "Unknown command: 'banana'. Try: take off, land, forward, back, left, right, up, down, stop").
Proof. reflexivity. Qed.

(** ** The coordinates a command leaves alone *)

(** C10 (as amended): [drone_takeoff] and [drone_land] write back the x and
    y they read.  [drone_move] writes a position in which at most one
    coordinate differs from the one read: x plus or minus the 0.2 step for
    forward and backward, y plus or minus the step for left and right, z
    plus the step for up; for down, z becomes [z - 0.2] when that is above
    0.3 and 0.3 otherwise, however far below the floor the target was. *)
Theorem C10_commands_keep_other_coordinates
    (s s1 : Self) (d : option ndarray) (x y z : float) (dir : Direction) :
  get_positions s = (Ret (d, Some [x; y; z]), s1) ->
  exists th,
    (exists z', link_calls (snd (drone_takeoff s))
                = link_calls s1 ++ [SetObjectPosition th [x; y; z']])
    /\ (exists z', link_calls (snd (drone_land s))
                   = link_calls s1 ++ [SetObjectPosition th [x; y; z']])
    /\ exists x' y' z',
         link_calls (snd (drone_move (direction_name dir) s))
         = link_calls s1 ++ [SetObjectPosition th [x'; y'; z']]
         /\ ((y' = y /\ z' = z) \/ (x' = x /\ z' = z) \/ (x' = x /\ y' = y))
         /\ match dir with
            | Forward => x' = (x + 0.2)%float
            | Backward => x' = (x - 0.2)%float
            | Left => y' = (y + 0.2)%float
            | Right => y' = (y - 0.2)%float
            | Up => z' = (z + 0.2)%float
            | Down => z' = if PrimFloat.ltb 0.3 (z - 0.2)
                           then (z - 0.2)%float else 0.3%float
            end.
Proof.
  intros E.
  destruct (get_positions_read s s1 _ E) as [_ [_ Hth]].
  destruct (Hth _ eq_refl) as [th Ht].
  destruct (drone_takeoff_read s s1 d x y z th E Ht) as [s2 [E2 [L2 _]]].
  destruct (drone_land_read s s1 d x y z th E Ht) as [s3 [E3 [L3 _]]].
  destruct (drone_move_read dir s s1 d x y z th E Ht) as [s4 [E4 [L4 _]]].
  exists th. rewrite E2, E3, E4. cbn [snd].
  split; [eauto|]. split; [eauto|].
  destruct dir; cbn [stepped] in L4;
    do 3 eexists; (split; [exact L4|]); split; auto.
Qed.

(** C10 at a connected drone with the target at [[0; 0; 1]], moving
    forward: only x changes, by the step. *)
Lemma C10_forward_keeps_y_and_z_witness :
  let s := sample_self [0; 0; 1]%float in
  exists th,
    (exists z', link_calls (snd (drone_takeoff s))
                = link_calls (snd (get_positions s))
                  ++ [SetObjectPosition th [0; 0; z']%float])
    /\ (exists z', link_calls (snd (drone_land s))
                   = link_calls (snd (get_positions s))
                     ++ [SetObjectPosition th [0; 0; z']%float])
    /\ exists x' y' z',
         link_calls (snd (drone_move "forward" s))
         = link_calls (snd (get_positions s))
           ++ [SetObjectPosition th [x'; y'; z']]
         /\ ((y' = 0 /\ z' = 1) \/ (x' = 0 /\ z' = 1) \/ (x' = 0 /\ y' = 0))%float
         /\ x' = (0 + 0.2)%float.
Proof.
  exact (C10_commands_keep_other_coordinates
           (sample_self [0; 0; 1]%float)
           (snd (get_positions (sample_self [0; 0; 1]%float)))
           _ _ _ _ Forward eq_refl).
Defined.

(** C10, counterexample: with the target read at height 0, "down" writes
    height 0.3: the coordinate moves up, and by more than the 0.2 step. *)
Lemma C10_down_below_floor_jumps :
  let s := sample_self [0; 0; 0]%float in
  fst (get_positions s) = Ret (Some [0; 0; 0.5]%float, Some [0; 0; 0]%float)
  /\ link_calls (snd (drone_move "down" s))
     = [GetObjectPosition 1; GetObjectPosition 2;
        SetObjectPosition 2 [0; 0; 0.3]%float]
  /\ PrimFloat.ltb 0.2 (0.3 - 0) = true
  /\ PrimFloat.ltb 0.2 (PrimFloat.abs (0.3 - 0)) = true.
Proof.
  cbv zeta. repeat split.
Qed.

(** ** The recognition loop *)

(** Two iterations are all the loop ever takes: more fuel changes nothing. *)
Lemma recognition_loop_fuel (transcribe : nat -> Transcription) (fuel : nat) :
  (max_attempts <= fuel)%nat ->
  recognition_loop fuel transcribe 0 None = recognize transcribe.
Proof.
  unfold recognize, max_attempts. intros Hf.
  destruct fuel as [|[|fuel]]; [lia | lia |].
  cbn. destruct (transcribe 1%nat); try reflexivity.
  destruct (transcribe 2%nat) as [text| |msg|e]; try reflexivity.
  - destruct (truthy (strip (lower text))); [reflexivity|].
    destruct fuel; reflexivity.
  - destruct fuel; reflexivity.
Qed.

(** C7 (as amended): on every captured clip the recognition loop ends
    after at most 2 calls of the speech service.  [UnknownValueError] is
    retried: after it on the first call a second call is made.
    [RequestError] is not retried: it ends the loop at once, on the first
    call as on the second, with no command.  When both calls end in one of
    the two, the pass of the voice loop finishes with no command run, [self]
    and the error counter as before. *)
Theorem C7_recognition_attempts (transcribe : nat -> Transcription) :
  exists result attempts,
    recognize transcribe = Some (result, attempts)
    /\ (1 <= attempts <= 2)%nat
    /\ (transcribe 1%nat = UnknownValueError -> attempts = 2%nat)
    /\ (forall msg, transcribe 1%nat = RequestError msg ->
                    attempts = 1%nat /\ result = Ret None)
    /\ (no_transcript (transcribe 1%nat) = true ->
        (attempts = 1%nat \/ no_transcript (transcribe 2%nat) = true) ->
        result = Ret None
        /\ forall recalibrated consecutive_errors s,
             voice_iteration (Audio transcribe) recalibrated consecutive_errors s
             = (Ret (Some consecutive_errors), s)).
Proof.
  unfold voice_iteration, recognize, max_attempts. cbn.
  destruct (transcribe 1%nat) as [text| |msg|e] eqn:E1;
    [destruct (truthy (strip (lower text)))
    |destruct (transcribe 2%nat) as [text| |msg|e] eqn:E2;
       [destruct (truthy (strip (lower text)))| | |]
    | | ];
    eexists _, _; (split; [reflexivity|]); repeat split; intros;
    try lia; try discriminate; try reflexivity;
    match goal with H : _ \/ _ |- _ => destruct H; discriminate end.
Qed.

(** C7, counterexample: the service fails on the first call and would
    have understood "land" on the second; the loop stops after one call
    and the pass runs no command. *)
Lemma C7_service_error_is_not_retried :
  let transcribe := fun k => if (k =? 1)%nat then RequestError "unreachable"
                             else Heard "land" in
  recognize transcribe = Some (Ret None, 1%nat)
  /\ recognition_loop 1 transcribe 1 None = Some (Ret (Some "land"), 2%nat)
  /\ voice_iteration (Audio transcribe) true 0 (sample_self [0; 0; 1]%float)
     = (Ret (Some 0%nat), sample_self [0; 0; 1]%float).
Proof.
  cbv zeta. repeat split.
Qed.

Example unrecognized_then_heard :
  recognize (fun k => if (k =? 1)%nat then UnknownValueError else Heard " Land ")
  = Some (Ret (Some "land"), 2%nat).
Proof. reflexivity. Qed.

Example unrecognized_twice :
  recognize (fun _ => UnknownValueError) = Some (Ret None, 2%nat).
Proof. reflexivity. Qed.

(** ** The frame buffer *)

Section FrameBufferProperties.

Context {Frame : Type}.

Lemma step_frame (b b' : Buffer Frame) (o : Op Frame) (seen : list (option Frame)) :
  step b o = Some (b', seen) ->
  seen = expected_reads (current_frame b) [o]
  /\ current_frame b' = latest (current_frame b) [o].
Proof.
  destruct o as [t|t|f|n]; cbn;
    match goal with |- context [if ?c then _ else _] => destruct c end;
    intros H; inversion H; subst; auto.
Qed.

(** Along a schedule the reads return what [expected_reads] says, and the
    buffer ends with the last published frame. *)
Lemma run_reads (ops : list (Op Frame)) :
  forall (b b' : Buffer Frame) (seen : list (option Frame)),
    run b ops = Some (b', seen) ->
    seen = expected_reads (current_frame b) ops
    /\ current_frame b' = latest (current_frame b) ops.
Proof.
  induction ops as [|o ops IH]; intros b b' seen H.
  - cbn in H. inversion H; subst. auto.
  - cbn [run] in H.
    destruct (step b o) as [[b1 seen1]|] eqn:Es; [|discriminate].
    destruct (run b1 ops) as [[b2 seen2]|] eqn:Er; [|discriminate].
    inversion H; subst.
    destruct (step_frame _ _ _ _ Es) as [Hs Hc].
    destruct (IH _ _ _ Er) as [Hs2 Hc2].
    rewrite Hs, Hs2, Hc2, Hc.
    destruct o; cbn; auto.
Qed.

Lemma expected_reads_app (pre post : list (Op Frame)) (held : option Frame) :
  expected_reads held (pre ++ post)
  = expected_reads held pre ++ expected_reads (latest held pre) post.
Proof.
  revert held; induction pre as [|o pre IH]; intros held; [reflexivity|].
  destruct o; cbn; rewrite IH; reflexivity.
Qed.

Lemma expected_reads_length (ops : list (Op Frame)) (held : option Frame) :
  length (expected_reads held ops) = reads_in ops.
Proof.
  revert held; induction ops as [|o ops IH]; intros held; [reflexivity|].
  destruct o; cbn; rewrite ?IH; reflexivity.
Qed.

Lemma last_nonempty {A} (l : list A) (x d d' : A) :
  List.last (x :: l) d = List.last (x :: l) d'.
Proof.
  revert x; induction l as [|y l IH]; intros x; [reflexivity|].
  change (List.last (y :: l) d = List.last (y :: l) d'). apply IH.
Qed.

(** [latest] is the last element of the published frames. *)
Lemma latest_published (ops : list (Op Frame)) (held : option Frame) :
  latest held ops = List.last (map Some (published ops)) held.
Proof.
  revert held; induction ops as [|o ops IH]; intros held; [reflexivity|].
  destruct o; cbn [latest published]; rewrite IH; try reflexivity.
  cbn [map]. destruct (map Some (published ops)) eqn:E; [reflexivity|].
  change (List.last (o :: l) (Some f) = List.last (o :: l) held).
  apply last_nonempty.
Qed.

(** C3: in every schedule of the lock-protected steps that starts from the
    empty buffer, each read returns the frame of the last publish before it
    in the schedule: no frame ([None]) exactly when nothing was published
    before it, otherwise the last of the frames published so far, whole.
    The buffer holds one frame at most, and at the end it holds the last
    frame published. *)
Theorem C3_reads_return_latest_published
    (ops : list (Op Frame)) (b : Buffer Frame) (seen : list (option Frame)) :
  run empty_buffer ops = Some (b, seen) ->
  length seen = reads_in ops
  /\ current_frame b = List.last (map Some (published ops)) None
  /\ forall pre n post,
       ops = pre ++ ReadLatest n :: post ->
       nth_error seen (reads_in pre)
       = Some (List.last (map Some (published pre)) None)
       /\ (nth_error seen (reads_in pre) = Some None <-> published pre = []).
Proof.
  intros H. apply run_reads in H as [Hs Hc]. cbn [empty_buffer current_frame] in *.
  split; [rewrite Hs; apply expected_reads_length|].
  split; [rewrite Hc; apply latest_published|].
  intros pre n post ->.
  assert (Hn : nth_error seen (reads_in pre)
               = Some (List.last (map Some (published pre)) None)).
  { rewrite Hs, expected_reads_app. cbn [expected_reads].
    rewrite nth_error_app2; rewrite expected_reads_length; [|lia].
    rewrite Nat.sub_diag. cbn. now rewrite latest_published. }
  split; [exact Hn|]. rewrite Hn. split.
  - intros E. inversion E as [E'].
    destruct (published pre) as [|f l] eqn:Ep; [reflexivity|].
    exfalso. clear -E'. cbn [map] in E'.
    revert f E'. induction l as [|g l IH]; intros f E'; [discriminate|].
    apply (IH g). exact E'.
  - intros ->. reflexivity.
Qed.

End FrameBufferProperties.

(** C3 on the sample schedule: the three reads return nothing, frame 7
    and frame 8. *)
Lemma C3_sample_schedule_witness :
  run empty_buffer sample_schedule
  = Some ({| current_frame := Some 8; frame_lock := None |}, [None; Some 7; Some 8])
  /\ length [None; Some 7; Some 8] = reads_in sample_schedule
  /\ Some 8 = List.last (map Some (published sample_schedule)) None
  /\ forall pre n post,
       sample_schedule = pre ++ ReadLatest n :: post ->
       nth_error [None; Some 7; Some 8] (reads_in pre)
       = Some (List.last (map Some (published pre)) None)
       /\ (nth_error [None; Some 7; Some 8] (reads_in pre) = Some None
           <-> published pre = []).
Proof.
  split; [reflexivity|].
  exact (C3_reads_return_latest_published sample_schedule
           {| current_frame := Some 8; frame_lock := None |}
           [None; Some 7; Some 8] eq_refl).
Defined.

(** The lock at work: a client cannot read while the capture loop holds
    the lock, nor without taking it. *)
Example read_needs_the_lock :
  run empty_buffer [Acquire Capture; Acquire (Client 0)] = (None : option (Buffer nat * _))
  /\ run empty_buffer [ReadLatest 0] = (None : option (Buffer nat * _))
  /\ run empty_buffer [Publish 7] = None.
Proof. repeat split. Qed.

(** ** The capture loop *)

Section CaptureLoopProperties.

Context {Frame : Type}.

(** The loop has stopped for good once it has seen the flag cleared:
    whatever ticks follow change nothing. *)
Lemma video_capture_loop_stopped (pre post : list (Tick Frame)) (held : option Frame) :
  snd (video_capture_loop pre held) = false ->
  video_capture_loop (pre ++ post) held = video_capture_loop pre held.
Proof.
  revert held; induction pre as [|t pre IH]; intros held; cbn; [discriminate|].
  destruct (streaming t); [|reflexivity].
  destruct (camera t) as [frame|]; [|apply IH].
  specialize (IH (Some frame)).
  destruct (video_capture_loop pre (Some frame)) as [[pubs final] running].
  cbn. intros ->. rewrite IH; reflexivity.
Qed.

(** While the loop runs, the ticks it has lived through fix the buffer the
    next tick starts from. *)
Lemma video_capture_loop_app (pre post : list (Tick Frame)) (held : option Frame) :
  snd (video_capture_loop pre held) = true ->
  video_capture_loop (pre ++ post) held
  = let '(pubs, final, _) := video_capture_loop pre held in
    let '(pubs', final', running) := video_capture_loop post final in
    (pubs ++ pubs', final', running).
Proof.
  revert held; induction pre as [|t pre IH]; intros held; cbn.
  - intros _. destruct (video_capture_loop post held) as [[pubs final] running].
    reflexivity.
  - destruct (streaming t); [|discriminate].
    destruct (camera t) as [frame|]; [|apply IH].
    specialize (IH (Some frame)).
    destruct (video_capture_loop pre (Some frame)) as [[pubs final] running].
    cbn. intros ->. rewrite IH by reflexivity.
    destruct (video_capture_loop post final) as [[pubs' final'] running'].
    reflexivity.
Qed.

(** C8: a tick on which the camera returns [None] publishes nothing and
    leaves the buffer as it was: the loop behaves as if the tick had not
    been.  Once a tick reads the flag cleared the loop is over: it publishes
    exactly what it published before that tick and leaves the buffer it had
    then, whatever the camera would have returned on that tick or on any
    later one. *)
Theorem C8_capture_loop_skips_and_stops
    (pre post : list (Tick Frame)) (held : option Frame) (cam : option Frame) :
  video_capture_loop [ {| streaming := true; camera := None |} ] held
  = ([], held, true)
  /\ video_capture_loop
       (pre ++ {| streaming := true; camera := None |} :: post) held
     = video_capture_loop (pre ++ post) held
  /\ video_capture_loop
       (pre ++ {| streaming := false; camera := cam |} :: post) held
     = (fst (fst (video_capture_loop pre held)),
        snd (fst (video_capture_loop pre held)), false).
Proof.
  split; [reflexivity|]. split.
  - destruct (snd (video_capture_loop pre held)) eqn:Er.
    + rewrite !video_capture_loop_app by exact Er.
      destruct (video_capture_loop pre held) as [[pubs final] running].
      reflexivity.
    + rewrite !video_capture_loop_stopped by exact Er. reflexivity.
  - destruct (snd (video_capture_loop pre held)) eqn:Er.
    + rewrite video_capture_loop_app by exact Er.
      destruct (video_capture_loop pre held) as [[pubs final] running].
      cbn. now rewrite app_nil_r.
    + rewrite video_capture_loop_stopped by exact Er.
      destruct (video_capture_loop pre held) as [[pubs final] running].
      cbn in *. now subst.
Qed.

End CaptureLoopProperties.

Example capture_run :
  video_capture_loop
    [ {| streaming := true; camera := Some 1 |};
      {| streaming := true; camera := None |};
      {| streaming := true; camera := Some 2 |};
      {| streaming := false; camera := Some 3 |};
      {| streaming := true; camera := Some 4 |} ] None
  = ([1; 2], Some 2, false).
Proof. reflexivity. Qed.

(* ================================================================== *)
(** * Further properties of the source *)

(** ** Object discovery and connection *)

Lemma find_object_cons (scene : Scene) (name : string) (rest : list string)
    (handle : option Z) :
  find_object scene (name :: rest) handle =
  match resolve scene name with
  | Some h => Some h
  | None => find_object scene rest handle
  end.
Proof.
  unfold resolve. cbn [find_object].
  destruct (getObject scene name); [reflexivity|].
  destruct (getObject scene ("/" ++ name)); reflexivity.
Qed.

(** X1: discovery takes the first candidate name, in list order, that the
    scene resolves, as a plain name or else as a path; the names after it
    are not used, and a handle the attribute held before is replaced. *)
Theorem find_object_takes_first_resolving
    (scene : Scene) (pre post : list string) (name : string)
    (handle : option Z) (h : Z) :
  (forall n, In n pre -> resolve scene n = None) ->
  resolve scene name = Some h ->
  find_object scene (pre ++ name :: post) handle = Some h.
Proof.
  intros Hpre Hname.
  induction pre as [|p pre IH]; cbn [app]; rewrite find_object_cons.
  - rewrite Hname. reflexivity.
  - rewrite (Hpre p (or_introl eq_refl)). apply IH.
    intros n Hn. apply Hpre. right. exact Hn.
Qed.

Lemma find_object_takes_first_resolving_witness :
  find_object path_scene (["Quadcopter"] ++ "Drone" :: ["quadcopter"; "Quadricopter"])
    None = Some 11%Z.
Proof.
  apply find_object_takes_first_resolving.
  - intros n [<-|[]]. reflexivity.
  - reflexivity.
Defined.

(** X2: when no candidate name resolves, by name or by path, discovery
    leaves the attribute as it was ([None] after [__init__]). *)
Theorem find_object_keeps_handle_when_nothing_resolves
    (scene : Scene) (names : list string) (handle : option Z) :
  (forall n, In n names -> resolve scene n = None) ->
  find_object scene names handle = handle.
Proof.
  induction names as [|name rest IH]; intros H; [reflexivity|].
  rewrite find_object_cons, (H name (or_introl eq_refl)).
  apply IH. intros n Hn. apply H. right. exact Hn.
Qed.

Lemma find_object_keeps_handle_witness :
  find_object path_scene camera_names None = None.
Proof.
  apply find_object_keeps_handle_when_nothing_resolves.
  intros n H. cbn in H.
  repeat (destruct H as [<-|H]; [reflexivity|]). destruct H.
Defined.

Lemma find_object_None (scene : Scene) (names : list string) :
  find_object scene names None = None <->
  forall n, In n names -> resolve scene n = None.
Proof.
  induction names as [|name rest IH].
  - split; [intros _ n []| reflexivity].
  - rewrite find_object_cons. destruct (resolve scene name) eqn:E.
    + split; [discriminate|]. intros H.
      rewrite (H name (or_introl eq_refl)) in E. discriminate.
    + rewrite IH. split.
      * intros H n [<-|Hn]; auto.
      * intros H n Hn. apply H. right. exact Hn.
Qed.

(** X3: [connect] sets [connected] as soon as the remote API answers,
    before it looks for the objects: [connected] is true exactly when the
    simulation module is there and the client could be created, whatever
    discovery finds.  [connect] returns true exactly when, besides, a drone
    name and a target name resolve; the camera plays no part, and after a
    true result both handles are set. *)
Theorem connect_sets_connected_before_discovery
    (simulation_mode : bool) (client : outcome Scene) :
  let c := connect simulation_mode client in
  (now_connected c = true <->
   simulation_mode = true /\ exists scene, client = Ret scene)
  /\ (connect_result c = true <->
      simulation_mode = true
      /\ exists scene,
           client = Ret scene
           /\ (exists n, In n drone_names /\ resolve scene n <> None)
           /\ (exists n, In n target_names /\ resolve scene n <> None))
  /\ (connect_result c = true ->
      now_connected c = true
      /\ h_drone (handles c) <> None /\ h_target (handles c) <> None).
Proof.
  assert (Hfind : forall scene names,
             find_object scene names None <> None <->
             exists n, In n names /\ resolve scene n <> None).
  { intros scene names. induction names as [|name rest IH].
    - cbn. split; [congruence | intros [n [[] _]]].
    - rewrite find_object_cons. destruct (resolve scene name) eqn:E.
      + split; [|discriminate]. intros _. exists name.
        split; [left; reflexivity | congruence].
      + rewrite IH. split.
        * intros [n [Hn Hr]]. exists n. split; [right|]; assumption.
        * intros [n [[<-|Hn] Hr]]; [congruence | exists n; auto]. }
  cbv zeta. unfold connect.
  destruct simulation_mode; cbn [negb].
  2:{ cbn. repeat split; try discriminate; intros [H _]; discriminate. }
  destruct client as [scene|e].
  2:{ cbn. repeat split; try discriminate; intros [_ [sc H]];
      try discriminate; destruct H; discriminate. }
  unfold setup_objects. cbn [h_drone h_target h_camera no_handles].
  pose proof (Hfind scene drone_names) as Hd.
  pose proof (Hfind scene target_names) as Ht.
  destruct (find_object scene drone_names None) as [dh|] eqn:Ed.
  - destruct (find_object scene target_names None) as [th|] eqn:Et; cbn.
    + repeat split; eauto; try discriminate.
      exists scene. repeat split.
      * apply Hd. discriminate.
      * apply Ht. discriminate.
    + repeat split; eauto; try discriminate.
      intros [_ [sc [Hsc [_ H]]]]. inversion Hsc; subst.
      apply Ht in H. congruence.
  - cbn. repeat split; eauto; try discriminate.
    intros [_ [sc [Hsc [H _]]]]. inversion Hsc; subst.
    apply Hd in H. congruence.
Qed.

Example connect_path_scene :
  connect true (Ret path_scene)
  = {| connect_result := true; now_connected := true;
       handles := {| h_drone := Some 11%Z; h_target := Some 12%Z;
                     h_camera := Some 31%Z |} |}.
Proof. reflexivity. Qed.

(** X4: when no camera name resolves, the camera is the first object of
    the drone's tree that [getObjectType] reports as a vision sensor;
    objects of another type, and objects whose type query raises, are
    passed over. *)
Theorem setup_camera_falls_back_to_drone_tree
    (scene : Scene) (dh child : Z) (pre post : list Z) (camera : option Z) :
  find_object scene camera_names camera = None ->
  getObjectsInTree scene dh = Ret (pre ++ child :: post) ->
  (forall c, In c pre -> is_vision_sensor scene c = false) ->
  is_vision_sensor scene child = true ->
  setup_camera scene (Some dh) camera = Some child.
Proof.
  intros Hnone Htree Hpre Hchild. unfold setup_camera.
  rewrite Hnone, Htree. clear Htree.
  induction pre as [|p pre IH]; cbn [app find_vision_sensor].
  - unfold is_vision_sensor in Hchild.
    destruct (getObjectType scene child); [|discriminate].
    rewrite Hchild. reflexivity.
  - pose proof (Hpre p (or_introl eq_refl)) as Hp.
    unfold is_vision_sensor in Hp.
    destruct (getObjectType scene p); [rewrite Hp|];
      apply IH; intros c Hc; apply Hpre; right; exact Hc.
Qed.

Lemma setup_camera_falls_back_witness :
  setup_camera path_scene (Some 11%Z) None = Some 31%Z.
Proof.
  apply (setup_camera_falls_back_to_drone_tree path_scene 11 31 [11; 30]%Z []).
  - reflexivity.
  - reflexivity.
  - intros c H. cbn in H.
    repeat (destruct H as [<-|H]; [reflexivity|]). destruct H.
  - reflexivity.
Defined.

(** ** The link calls of a command *)

(** [get_positions] in full: what it returns and what it adds to the log. *)
Lemma get_positions_calls (s : Self) :
  exists pos s1 l,
    get_positions s = (Ret pos, s1)
    /\ link_calls s1 = link_calls s ++ l
    /\ sim s1 = sim s /\ target_handle s1 = target_handle s
    /\ ((pos = (None, None)
         /\ (l = [] /\ s1 = s
             \/ (exists dh, truthy_handle (drone_handle s) = Some dh
                            /\ l = [GetObjectPosition dh])
             \/ (exists dh th, truthy_handle (drone_handle s) = Some dh
                               /\ target_handle s = Some th
                               /\ l = [GetObjectPosition dh; GetObjectPosition th])))
        \/ (exists dh th d t,
               pos = (Some d, Some t)
               /\ truthy_handle (drone_handle s) = Some dh
               /\ target_handle s = Some th
               /\ l = [GetObjectPosition dh; GetObjectPosition th])).
Proof.
  unfold get_positions, bind, get_self, try_except.
  destruct (truthy_handle (drone_handle s)) as [dh|] eqn:Hd.
  2:{ exists (None, None), s, []. rewrite app_nil_r. repeat split. left. auto. }
  destruct (truthy_handle (target_handle s)) as [th|] eqn:Ht.
  2:{ exists (None, None), s, []. rewrite app_nil_r. repeat split. left. auto. }
  apply truthy_handle_Some in Ht.
  unfold sim_getObjectPosition, bind, log_call, modify, get_self. cbn.
  destruct (object_position (sim s) dh) as [d|e] eqn:Ed; cbn.
  2:{ eexists (None, None), _, [GetObjectPosition dh].
      repeat split. left. split; [reflexivity|]. right. left. eauto. }
  destruct (object_position (sim s) th) as [t|e] eqn:Et; cbn.
  2:{ eexists (None, None), _, [GetObjectPosition dh; GetObjectPosition th].
      split; [reflexivity|]. split; [cbn; now rewrite <- app_assoc|].
      repeat split. left. split; [reflexivity|]. right. right. eauto. }
  eexists (Some d, Some t), _, [GetObjectPosition dh; GetObjectPosition th].
  split; [reflexivity|]. split; [cbn; now rewrite <- app_assoc|].
  repeat split. right. exists dh, th, d, t. auto.
Qed.

(** Computing the new target touches nothing. *)
Lemma step_target_pure (direction : string) (t : ndarray) (s : Self) :
  snd (step_target direction t s) = s.
Proof.
  unfold step_target, getitem, setitem, bind, ret, raise.
  repeat match goal with
         | |- context [if ?b then _ else _] => destruct b
         | |- context [match nth_error ?a ?i with _ => _ end] =>
             destruct (nth_error a i)
         end; reflexivity.
Qed.

(** After the reads, an operation adds at most one write, to the target. *)
Lemma write_or_nothing (prepared : outcome ndarray) (s1 : Self) (th : Z)
    (ok failed : string) (h : exn -> M Result) :
  target_handle s1 = Some th ->
  (forall e, snd (h e s1) = s1) ->
  let s2 := snd (match prepared with
                 | Ret p =>
                     match move_target p s1 with
                     | (Ret moved, s') =>
                         (if moved then ret (success ok) else ret (error failed)) s'
                     | (Raise e, s') => h e s'
                     end
                 | Raise e => h e s1
                 end) in
  link_calls s2 = link_calls s1
  \/ exists p, link_calls s2 = link_calls s1 ++ [SetObjectPosition th p].
Proof.
  intros Ht Hh. destruct prepared as [p|e]; cbn zeta.
  - destruct (move_target_write p s1 th Ht) as [s' [E [Hl _]]].
    rewrite E. right. exists p.
    destruct (is_None (set_failure (sim s1) th p)); exact Hl.
  - left. now rewrite Hh.
Qed.

Lemma drone_takeoff_calls (s : Self) :
  exists l, link_calls (snd (drone_takeoff s)) = link_calls s ++ l
            /\ command_calls s l.
Proof.
  destruct (get_positions_calls s)
    as [pos [s1 [l [E [Hl [_ [Hth H]]]]]]].
  unfold drone_takeoff, try_except. unfold bind at 1. rewrite E.
  destruct H as [[-> H] | [dh [th [d [t [-> [Hd [Ht ->]]]]]]]]; cbn [snd].
  - exists l. split; [exact Hl|].
    destruct H as [[-> _] | [[dh [Hd ->]] | [dh [th [Hd [Ht ->]]]]]];
      econstructor; eauto.
  - rewrite <- Hth in Ht.
    pose proof (write_or_nothing
                  (fst (bind (getitem t 2) (fun z => setitem t 2 (pymax 1 z)) s1))
                  s1 th "Taking off" "Takeoff failed"
                  (fun _ => ret (error "Takeoff failed - check CoppeliaSim"))
                  Ht (fun _ => eq_refl)) as W.
    cbv zeta in W. rewrite Hth in Ht.
    assert (Hsame :
      snd (match bind (getitem t 2)
                   (fun z => bind (setitem t 2 (pymax 1 z))
                      (fun current_target => bind (move_target current_target)
                         (fun moved => if moved then ret (success "Taking off")
                                       else ret (error "Takeoff failed")))) s1 with
           | (Ret a, s') => (Ret a, s')
           | (Raise e, s') => ret (error "Takeoff failed - check CoppeliaSim") s'
           end)
      = snd (match fst (bind (getitem t 2) (fun z => setitem t 2 (pymax 1 z)) s1) with
             | Ret p =>
                 match move_target p s1 with
                 | (Ret moved, s') =>
                     (if moved then ret (success "Taking off")
                      else ret (error "Takeoff failed")) s'
                 | (Raise e, s') =>
                     ret (error "Takeoff failed - check CoppeliaSim") s'
                 end
             | Raise e => ret (error "Takeoff failed - check CoppeliaSim") s1
             end)).
    { unfold getitem, setitem, bind, ret, raise.
      destruct (nth_error t 2); [|reflexivity].
      destruct (2 <? length t)%nat; [|reflexivity]. cbn [fst].
      destruct (move_target _ s1) as [[[]|] ?]; reflexivity. }
    rewrite Hsame. destruct W as [W | [p W]]; rewrite W, Hl.
    + eexists. split; [reflexivity|]. econstructor; eauto.
    + eexists. rewrite <- app_assoc. split; [reflexivity|].
      cbn [app]. econstructor; eauto.
Qed.

Lemma prepared_write_calls (prep : M ndarray) (s1 : Self) (th : Z)
    (ok failed : string) (h : exn -> M Result) :
  target_handle s1 = Some th ->
  snd (prep s1) = s1 ->
  (forall e, snd (h e s1) = s1) ->
  let s2 := snd (try_except
                   (bind prep (fun p =>
                      bind (move_target p) (fun moved =>
                        if moved then ret (success ok) else ret (error failed))))
                   h s1) in
  link_calls s2 = link_calls s1
  \/ exists p, link_calls s2 = link_calls s1 ++ [SetObjectPosition th p].
Proof.
  intros Ht Hp Hh. cbv zeta. unfold try_except, bind.
  destruct (prep s1) as [[p|e] s'] eqn:E; cbn [snd] in Hp; subst s'.
  - destruct (move_target_write p s1 th Ht) as [s2 [Em [Hl _]]].
    rewrite Em. right. exists p.
    destruct (is_None (set_failure (sim s1) th p)); exact Hl.
  - left. now rewrite Hh.
Qed.

Lemma setitem_pure (a : ndarray) (i : nat) (v : float) (s : Self) :
  snd (setitem a i v s) = s.
Proof. unfold setitem. destruct (i <? length a)%nat; reflexivity. Qed.

(** The shape of the log after an operation whose reads are described by
    [get_positions_calls] and whose tail adds a write or nothing. *)
Lemma calls_after_reads (s s1 s2 : Self) (l : list LinkCall) (dh th : Z) :
  link_calls s1 = link_calls s ++ l ->
  l = [GetObjectPosition dh; GetObjectPosition th] ->
  truthy_handle (drone_handle s) = Some dh ->
  target_handle s = Some th ->
  (link_calls s2 = link_calls s1
   \/ exists p, link_calls s2 = link_calls s1 ++ [SetObjectPosition th p]) ->
  exists l', link_calls s2 = link_calls s ++ l' /\ command_calls s l'.
Proof.
  intros Hl -> Hd Ht [W | [p W]]; rewrite W, Hl.
  - eexists. split; [reflexivity|]. econstructor; eauto.
  - eexists. rewrite <- app_assoc. split; [reflexivity|].
    cbn [app]. econstructor; eauto.
Qed.

Lemma calls_without_target (s s1 : Self) (l : list LinkCall) :
  link_calls s1 = link_calls s ++ l ->
  (l = [] /\ s1 = s
   \/ (exists dh, truthy_handle (drone_handle s) = Some dh
                  /\ l = [GetObjectPosition dh])
   \/ (exists dh th, truthy_handle (drone_handle s) = Some dh
                     /\ target_handle s = Some th
                     /\ l = [GetObjectPosition dh; GetObjectPosition th])) ->
  exists l', link_calls s1 = link_calls s ++ l' /\ command_calls s l'.
Proof.
  intros Hl H. exists l. split; [exact Hl|].
  destruct H as [[-> _] | [[dh [Hd ->]] | [dh [th [Hd [Ht ->]]]]]];
    econstructor; eauto.
Qed.

Lemma drone_land_calls (s : Self) :
  exists l, link_calls (snd (drone_land s)) = link_calls s ++ l
            /\ command_calls s l.
Proof.
  destruct (get_positions_calls s)
    as [pos [s1 [l [E [Hl [_ [Hth H]]]]]]].
  destruct H as [[-> H] | [dh [th [d [t [-> [Hd [Ht Hl']]]]]]]].
  - destruct (operations_without_read s s1 None E) as [_ [El _]].
    rewrite El. cbn [snd]. eapply calls_without_target; eauto.
  - eapply calls_after_reads; eauto.
    unfold drone_land. rewrite (try_bind_read _ _ _ _ _ E). cbn [snd].
    rewrite <- Hth in Ht.
    exact (prepared_write_calls (setitem t 2 0.3%float) s1 th
             "Landing" "Landing failed"
             (fun _ => ret (error "Landing failed - check CoppeliaSim"))
             Ht (setitem_pure _ _ _ _) (fun _ => eq_refl)).
Qed.

Lemma drone_move_calls (direction : string) (s : Self) :
  exists l, link_calls (snd (drone_move direction s)) = link_calls s ++ l
            /\ command_calls s l.
Proof.
  destruct (get_positions_calls s)
    as [pos [s1 [l [E [Hl [_ [Hth H]]]]]]].
  destruct H as [[-> H] | [dh [th [d [t [-> [Hd [Ht Hl']]]]]]]].
  - destruct (operations_without_read s s1 None E) as [_ [_ Em]].
    rewrite Em. cbn [snd]. eapply calls_without_target; eauto.
  - eapply calls_after_reads; eauto.
    unfold drone_move. rewrite (try_bind_read _ _ _ _ _ E). cbn [snd].
    rewrite <- Hth in Ht.
    exact (prepared_write_calls (step_target direction t) s1 th
             ("Moving " ++ direction) ("Move target failed for " ++ direction)
             (fun e => ret (error ("Move failed - check CoppeliaSim: " ++ exn_str e)))
             Ht (step_target_pure _ _ _) (fun _ => eq_refl)).
Qed.

(** X5: whatever the command and the state, [execute_voice_command] adds
    to the link log nothing, or the read of the drone, or the reads of drone
    and target, or these two reads followed by one write; the write, if any,
    goes to the target handle and comes after both reads.  The drone's own
    position is never written, and no command makes more than three link
    calls. *)
Theorem execute_voice_command_link_calls (command : string) (s : Self) :
  exists l,
    link_calls (snd (execute_voice_command command s)) = link_calls s ++ l
    /\ command_calls s l
    /\ (length l <= 3)%nat
    /\ forall h p, In (SetObjectPosition h p) l ->
                   target_handle s = Some h
                   /\ exists dh, l = [GetObjectPosition dh; GetObjectPosition h;
                                      SetObjectPosition h p].
Proof.
  assert (H : exists l,
             link_calls (snd (execute_voice_command command s)) = link_calls s ++ l
             /\ command_calls s l).
  { rewrite execute_voice_command_dispatch.
    destruct (connected s).
    - rewrite (try_except_returns _ _ _ s (perform_returns _)).
      destruct (classify (strip (lower command))); cbn [perform].
      + apply drone_takeoff_calls.
      + apply drone_land_calls.
      + apply drone_move_calls.
      + exists []. rewrite app_nil_r. split; [reflexivity | constructor].
      + exists []. rewrite app_nil_r. split; [reflexivity | constructor].
    - exists []. rewrite app_nil_r. split; [reflexivity | constructor]. }
  destruct H as [l [Hl Hc]]. exists l. split; [exact Hl|]. split; [exact Hc|].
  destruct Hc; cbn; (split; [lia|]); intros h q Hin;
    repeat (destruct Hin as [Hin|Hin]; [try discriminate|]);
    try contradiction.
  inversion Hin; subst. eauto.
Qed.

(** X6: when [connect] has set [connected] although discovery failed (it
    returned false), [self] has no drone handle or no target handle: every
    command then comes back without a single link call, and every take-off,
    landing or move is an error. *)
Theorem commands_after_failed_discovery
    (client : outcome Scene) (x : Sim) (command : string) :
  let c := connect true client in
  let s := self_after_connect c x in
  now_connected c = true ->
  connect_result c = false ->
  exists r,
    execute_voice_command command s = (Ret r, s)
    /\ (status r = "error" \/ classify (strip (lower command)) = Hover).
Proof.
  cbv zeta. intros Hn Hr.
  set (c := connect true client) in *.
  set (s := self_after_connect c x).
  assert (Hh : truthy_handle (drone_handle s) = None
               \/ truthy_handle (target_handle s) = None).
  { subst s c. unfold connect in *. cbn [negb] in *.
    destruct client as [scene|e]; [|discriminate].
    unfold setup_objects in *. cbn [h_drone h_target h_camera no_handles] in *.
    destruct (find_object scene drone_names None) eqn:Ed; [|left; reflexivity].
    destruct (find_object scene target_names None) eqn:Et; [discriminate|].
    right. reflexivity. }
  assert (E : get_positions s = (Ret (None, None), s)).
  { unfold get_positions, bind, get_self, try_except.
    destruct Hh as [-> | ->]; [reflexivity|].
    destruct (truthy_handle (drone_handle s)); reflexivity. }
  destruct (operations_without_read s s None E) as [E1 [E2 E3]].
  rewrite execute_voice_command_connected by exact Hn.
  destruct (classify (strip (lower command))); cbn [perform].
  - rewrite E1. eexists. split; [reflexivity | left; reflexivity].
  - rewrite E2. eexists. split; [reflexivity | left; reflexivity].
  - rewrite E3. eexists. split; [reflexivity | left; reflexivity].
  - eexists. split; [reflexivity | right; reflexivity].
  - eexists. split; [reflexivity | left; reflexivity].
Qed.

Lemma commands_after_failed_discovery_witness :
  let s := self_after_connect (connect true (Ret targetless_scene))
             (sample_sim [0; 0; 1]%float [0; 0; 1]%float) in
  exists r,
    execute_voice_command "take off" s = (Ret r, s)
    /\ (status r = "error" \/ classify (strip (lower "take off")) = Hover).
Proof.
  exact (commands_after_failed_discovery (Ret targetless_scene)
           (sample_sim [0; 0; 1]%float [0; 0; 1]%float) "take off"
           eq_refl eq_refl).
Defined.

(** ** Altitude floors *)

(** With [a] an ordinary number, Python's [max(a, b)] is at least [a]
    whatever [b] is, an infinity or a NaN included; in particular it is not
    a NaN. *)
Lemma pymax_at_least (a b : float) :
  PrimFloat.leb a a = true -> PrimFloat.leb a (pymax a b) = true.
Proof.
  intros Ha. unfold pymax. destruct (PrimFloat.ltb a b) eqn:E; [|exact Ha].
  rewrite leb_spec. rewrite ltb_spec in E.
  unfold SpecFloat.SFleb, SpecFloat.SFltb in *.
  destruct (SpecFloat.SFcompare (Prim2SF a) (Prim2SF b)) as [[]|];
    congruence.
Qed.

(** X7: whatever target position is read (any binary64 values, infinities
    and NaN included), the height [drone_takeoff] writes is at least 1.0,
    the height [drone_move("down")] writes is at least 0.3, and the height
    [drone_land] writes is 0.3: none of the three ever writes a height below
    the landing height, or a NaN height. *)
Theorem written_height_has_a_floor
    (s s1 : Self) (d : option ndarray) (x y z : float) :
  get_positions s = (Ret (d, Some [x; y; z]), s1) ->
  exists th z_takeoff z_down,
    link_calls (snd (drone_takeoff s))
    = link_calls s1 ++ [SetObjectPosition th [x; y; z_takeoff]]
    /\ PrimFloat.leb 1 z_takeoff = true
    /\ link_calls (snd (drone_move "down" s))
       = link_calls s1 ++ [SetObjectPosition th [x; y; z_down]]
    /\ PrimFloat.leb 0.3 z_down = true
    /\ link_calls (snd (drone_land s))
       = link_calls s1 ++ [SetObjectPosition th [x; y; 0.3%float]].
Proof.
  intros E.
  destruct (get_positions_read s s1 _ E) as [_ [_ Hth]].
  destruct (Hth _ eq_refl) as [th Ht].
  destruct (drone_takeoff_read s s1 d x y z th E Ht) as [s2 [E2 [L2 _]]].
  destruct (drone_land_read s s1 d x y z th E Ht) as [s3 [E3 [L3 _]]].
  destruct (drone_move_read Down s s1 d x y z th E Ht) as [s4 [E4 [L4 _]]].
  cbn [direction_name stepped] in E4, L4.
  exists th, (pymax 1 z), (pymax 0.3 (z - move_step)).
  rewrite E2, E3, E4. cbn [snd].
  repeat split; auto; apply pymax_at_least; reflexivity.
Qed.

(** X7 at a target whose height reads as NaN: take-off writes 1.0 and
    "down" writes 0.3. *)
Lemma written_height_has_a_floor_witness :
  let s := sample_self [0; 0; nan]%float in
  exists th z_takeoff z_down,
    link_calls (snd (drone_takeoff s))
    = link_calls (snd (get_positions s))
      ++ [SetObjectPosition th [0; 0; z_takeoff]%float]
    /\ PrimFloat.leb 1 z_takeoff = true
    /\ link_calls (snd (drone_move "down" s))
       = link_calls (snd (get_positions s))
         ++ [SetObjectPosition th [0; 0; z_down]%float]
    /\ PrimFloat.leb 0.3 z_down = true
    /\ link_calls (snd (drone_land s))
       = link_calls (snd (get_positions s))
         ++ [SetObjectPosition th [0; 0; 0.3]%float].
Proof.
  exact (written_height_has_a_floor (sample_self [0; 0; nan]%float)
           (snd (get_positions (sample_self [0; 0; nan]%float)))
           _ _ _ _ eq_refl).
Defined.

Example takeoff_from_nan :
  link_calls (snd (drone_takeoff (sample_self [0; 0; nan]%float)))
  = [GetObjectPosition 1; GetObjectPosition 2;
     SetObjectPosition 2 [0; 0; 1]%float].
Proof. reflexivity. Qed.

(** ** Normalizing a command twice *)

Lemma isspace_lower_char (c : ascii) : isspace (lower_char c) = isspace c.
Proof. destruct c as [[] [] [] [] [] [] [] []]; reflexivity. Qed.

Lemma lower_char_idem (c : ascii) : lower_char (lower_char c) = lower_char c.
Proof. destruct c as [[] [] [] [] [] [] [] []]; reflexivity. Qed.

Lemma lower_idem (s : string) : lower (lower s) = lower s.
Proof.
  induction s as [|c s IH]; [reflexivity|].
  cbn [lower]. now rewrite lower_char_idem, IH.
Qed.

Lemma lower_lstrip (s : string) : lower (lstrip s) = lstrip (lower s).
Proof.
  induction s as [|c s IH]; [reflexivity|].
  cbn [lower lstrip]. rewrite isspace_lower_char.
  destruct (isspace c); [exact IH | reflexivity].
Qed.

Lemma lower_rstrip (s : string) : lower (rstrip s) = rstrip (lower s).
Proof.
  induction s as [|c s IH]; [reflexivity|].
  cbn [lower rstrip]. rewrite <- IH, isspace_lower_char.
  destruct (rstrip s); cbn [lower]; [destruct (isspace c)|]; reflexivity.
Qed.

Lemma lower_strip (s : string) : lower (strip s) = strip (lower s).
Proof. unfold strip. now rewrite lower_rstrip, lower_lstrip. Qed.

Lemma rstrip_idem (s : string) : rstrip (rstrip s) = rstrip s.
Proof.
  induction s as [|c s IH]; [reflexivity|].
  cbn [rstrip]. destruct (rstrip s) as [|d r] eqn:E.
  - destruct (isspace c) eqn:Ec; [reflexivity|].
    cbn [rstrip]. now rewrite Ec.
  - cbn [rstrip]. cbn [rstrip] in IH. rewrite IH. reflexivity.
Qed.

(** What [lstrip] leaves is empty or starts with a character that is not
    whitespace, and [rstrip] keeps such a first character. *)
Lemma lstrip_head (s : string) :
  lstrip s = "" \/ exists c r, lstrip s = String c r /\ isspace c = false.
Proof.
  induction s as [|c s IH]; [left; reflexivity|].
  cbn [lstrip]. destruct (isspace c) eqn:E; [exact IH|].
  right. eauto.
Qed.

Lemma rstrip_head (c : ascii) (r : string) :
  isspace c = false -> exists r', rstrip (String c r) = String c r'.
Proof.
  intros E. cbn [rstrip]. destruct (rstrip r); [rewrite E|]; eauto.
Qed.

Lemma strip_idem (s : string) : strip (strip s) = strip s.
Proof.
  unfold strip.
  destruct (lstrip_head s) as [-> | [c [r [-> Ec]]]]; [reflexivity|].
  destruct (rstrip_head c r Ec) as [r' E].
  assert (El : lstrip (rstrip (String c r)) = rstrip (String c r)).
  { rewrite E. cbn [lstrip]. now rewrite Ec. }
  rewrite El. apply rstrip_idem.
Qed.

Lemma normalize_idem (command : string) :
  strip (lower (strip (lower command))) = strip (lower command).
Proof. now rewrite lower_strip, lower_idem, strip_idem. Qed.

(** X8: lowercasing and trimming a command that is already lowercased and
    trimmed changes nothing, so the second normalization, the one
    [execute_voice_command] applies to what the voice loop and the
    [manual_command] handler have normalized already, is harmless: the
    command does the same as the text it came from, and the handler does
    the same on the text and on its normal form. *)
Theorem normalizing_twice_is_harmless (command : string) (s : Self) :
  strip (lower (strip (lower command))) = strip (lower command)
  /\ execute_voice_command (strip (lower command)) s
     = execute_voice_command command s
  /\ handle_manual_command (Some (strip (lower command))) s
     = handle_manual_command (Some command) s.
Proof.
  split; [apply normalize_idem|]. split.
  - rewrite !execute_voice_command_dispatch, normalize_idem. reflexivity.
  - unfold handle_manual_command. rewrite normalize_idem. reflexivity.
Qed.

(** ** Blank commands *)

Lemma all_space_lower (s : string) : all_space (lower s) = all_space s.
Proof.
  induction s as [|c s IH]; [reflexivity|].
  cbn [lower all_space]. now rewrite isspace_lower_char, IH.
Qed.

Lemma lstrip_all_space (s : string) : all_space s = true -> lstrip s = "".
Proof.
  induction s as [|c s IH]; [reflexivity|].
  cbn [all_space lstrip]. intros H. apply andb_true_iff in H as [-> H]. auto.
Qed.

Lemma strip_blank (s : string) : all_space s = true -> strip (lower s) = "".
Proof.
  intros H. unfold strip. rewrite lstrip_all_space; [reflexivity|].
  now rewrite all_space_lower.
Qed.

(** X9: a command made of whitespace only, or a [manual_command] message
    without the key ['command'], is dropped by the handler: nothing is
    executed, nothing is sent back and [self] is unchanged.  The voice loop
    drops a transcript of whitespace in the same way, after one call of the
    speech service and without a retry, the error counter left as it was. *)
Theorem blank_commands_are_dropped
    (command : string) (transcribe : nat -> Transcription)
    (recalibrated : bool) (consecutive_errors : nat) (s : Self) :
  all_space command = true ->
  handle_manual_command None s = (Ret tt, s)
  /\ handle_manual_command (Some command) s = (Ret tt, s)
  /\ (transcribe 1%nat = Heard command ->
      recognize transcribe = Some (Ret (Some ""), 1%nat)
      /\ voice_iteration (Audio transcribe) recalibrated consecutive_errors s
         = (Ret (Some consecutive_errors), s)).
Proof.
  intros H. pose proof (strip_blank command H) as Hs.
  split; [reflexivity|]. split.
  - unfold handle_manual_command. rewrite Hs. reflexivity.
  - intros Ht. unfold voice_iteration, recognize, max_attempts.
    cbn. rewrite Ht, Hs. cbn. split; reflexivity.
Qed.

Example no_break_spaces_are_dropped :
  handle_manual_command
    (Some (String (ascii_of_nat 160) (String (ascii_of_nat 160) "")))
    (sample_self [0; 0; 1]%float)
  = (Ret tt, sample_self [0; 0; 1]%float).
Proof. reflexivity. Qed.

Lemma blank_commands_are_dropped_witness :
  let s := sample_self [0; 0; 1]%float in
  handle_manual_command None s = (Ret tt, s)
  /\ handle_manual_command (Some "   ") s = (Ret tt, s)
  /\ ((fun _ : nat => Heard "   ") 1%nat = Heard "   " ->
      recognize (fun _ => Heard "   ") = Some (Ret (Some ""), 1%nat)
      /\ voice_iteration (Audio (fun _ => Heard "   ")) true 3 s
         = (Ret (Some 3%nat), s)).
Proof.
  exact (blank_commands_are_dropped "   " (fun _ => Heard "   ") true 3
           (sample_self [0; 0; 1]%float) eq_refl).
Defined.

(** ** Web clients *)

Lemma handle_client_event_stats (e : ClientEvent) (s : Self) :
  exists s',
    handle_client_event e s = (Ret tt, s')
    /\ link_calls s' = link_calls s /\ sim s' = sim s
    /\ connected s' = connected s /\ emitted s' = emitted s
    /\ total_commands (stats s') = total_commands (stats s)
    /\ successful_commands (stats s') = successful_commands (stats s)
    /\ stats_last_command (stats s') = stats_last_command (stats s)
    /\ connected_clients (stats s')
       = match e with
         | Connects => (connected_clients (stats s) + 1)%Z
         | Disconnects => Z.max 0 (connected_clients (stats s) - 1)
         end.
Proof.
  destruct e; eexists; (split; [reflexivity|]); repeat split.
Qed.

(** X10: over any sequence of client connections and disconnections the
    client count never goes below zero (a disconnection at zero leaves
    zero), never exceeds the initial count plus the connections seen, and
    the handlers touch neither the command statistics nor the link; a
    disconnection right after a connection gives the count back. *)
Theorem client_count_stays_natural (events : list ClientEvent) (s : Self) :
  (0 <= connected_clients (stats s))%Z ->
  exists s',
    handle_client_events events s = (Ret tt, s')
    /\ (0 <= connected_clients (stats s')
        <= connected_clients (stats s) + Z.of_nat (connects_in events))%Z
    /\ total_commands (stats s') = total_commands (stats s)
    /\ successful_commands (stats s') = successful_commands (stats s)
    /\ stats_last_command (stats s') = stats_last_command (stats s)
    /\ link_calls s' = link_calls s
    /\ connected_clients
         (stats (snd (handle_client_events [Connects; Disconnects] s)))
       = connected_clients (stats s).
Proof.
  intros H0.
  cut (exists s',
          handle_client_events events s = (Ret tt, s')
          /\ (0 <= connected_clients (stats s')
              <= connected_clients (stats s) + Z.of_nat (connects_in events))%Z
          /\ total_commands (stats s') = total_commands (stats s)
          /\ successful_commands (stats s') = successful_commands (stats s)
          /\ stats_last_command (stats s') = stats_last_command (stats s)
          /\ link_calls s' = link_calls s).
  { intros [s' [E [Hb [Ht [Hs [Hc Hl]]]]]]. exists s'.
    repeat split; auto; try apply Hb. cbn. lia. }
  revert s H0. induction events as [|e events IH]; intros s H0.
  - exists s. cbn. repeat split; auto; lia.
  - destruct (handle_client_event_stats e s)
      as [s1 [E1 [Hl [_ [_ [_ [Ht [Hs [Hc Hn]]]]]]]]].
    assert (H1 : (0 <= connected_clients (stats s1))%Z)
      by (rewrite Hn; destruct e; lia).
    destruct (IH s1 H1) as [s' [E' [Hb [Ht' [Hs' [Hc' Hl']]]]]].
    exists s'. cbn [handle_client_events]. unfold bind at 1. rewrite E1.
    split; [exact E'|].
    assert (Hk : (connected_clients (stats s1) + Z.of_nat (connects_in events)
                  <= connected_clients (stats s)
                     + Z.of_nat (connects_in (e :: events)))%Z).
    { unfold connects_in. rewrite Hn. destruct e; cbn [filter length]; lia. }
    repeat split; try congruence; lia.
Qed.

Lemma client_count_stays_natural_witness :
  let s := sample_self [0; 0; 1]%float in
  exists s',
    handle_client_events [Disconnects; Connects; Connects; Disconnects] s
    = (Ret tt, s')
    /\ (0 <= connected_clients (stats s')
        <= connected_clients (stats s)
           + Z.of_nat (connects_in [Disconnects; Connects; Connects; Disconnects]))%Z
    /\ total_commands (stats s') = total_commands (stats s)
    /\ successful_commands (stats s') = successful_commands (stats s)
    /\ stats_last_command (stats s') = stats_last_command (stats s)
    /\ link_calls s' = link_calls s
    /\ connected_clients
         (stats (snd (handle_client_events [Connects; Disconnects] s)))
       = connected_clients (stats s).
Proof.
  apply (client_count_stays_natural
           [Disconnects; Connects; Connects; Disconnects]
           (sample_self [0; 0; 1]%float)).
  cbn. lia.
Defined.

(** ** The voice loop over several passes *)

Lemma recognize_ends (transcribe : nat -> Transcription) :
  exists r n, recognize transcribe = Some (r, n).
Proof.
  unfold recognize, max_attempts. cbn.
  destruct (transcribe 1%nat) as [text| | |];
    [destruct (truthy (strip (lower text)))
    |destruct (transcribe 2%nat) as [text| | |];
       [destruct (truthy (strip (lower text)))| | |]
    | | ]; eauto.
Qed.

(** One pass either leaves [self] as it was or runs exactly one command
    through [voice_submit]; it never raises and never runs out of fuel. *)
Lemma voice_iteration_cases (heard : Listen) (recalibrated : bool)
    (consecutive_errors : nat) (s : Self) :
  exists n s',
    voice_iteration heard recalibrated consecutive_errors s = (Ret (Some n), s')
    /\ (s' = s /\ (n = consecutive_errors
                   \/ n = on_voice_error recalibrated consecutive_errors)
        \/ exists text, truthy text = true /\ strip (lower text) = text
                        /\ voice_submit text s = (Ret tt, s') /\ n = 0%nat).
Proof.
  destruct heard as [transcribe| |e]; cbn [voice_iteration].
  2,3: eexists _, s; split; [reflexivity|]; left; auto.
  destruct (recognize transcribe) as [[[[text|]|e] k]|] eqn:Er.
  - destruct (truthy text) eqn:Et.
    + destruct (execute_voice_command_returns text s) as [r [s1 [E _]]].
      destruct (voice_submit_eq text s s1 r E) as [s' [Ev _]].
      exists 0%nat, s'. unfold try_except, bind. rewrite Ev.
      split; [reflexivity|]. right. exists text. repeat split; auto.
      revert Er Et. unfold recognize, max_attempts. cbn.
      destruct (transcribe 1%nat) as [t1| | |];
        [destruct (truthy (strip (lower t1))) eqn:E1
        |destruct (transcribe 2%nat) as [t2| | |];
           [destruct (truthy (strip (lower t2))) eqn:E2| | |]
        | | ]; intros H; inversion H; subst; intros;
        try apply normalize_idem; congruence.
    + eexists _, s. split; [reflexivity|]. left. auto.
  - eexists _, s. split; [reflexivity|]. left. auto.
  - eexists _, s. split; [reflexivity|]. left. auto.
  - destruct (recognize_ends transcribe) as [r [n E]]. congruence.
Qed.

(** X11: over any run of the voice loop, whatever is heard, the loop never
    raises; [successful_commands] stays at most [total_commands] if it was,
    both counters only grow, [total_commands] by at most one per pass, and
    the count of web clients is not touched. *)
Theorem voice_loop_keeps_counters_consistent
    (passes : list (Listen * bool)) (consecutive_errors : nat) (s : Self) :
  (successful_commands (stats s) <= total_commands (stats s))%Z ->
  exists n s',
    voice_loop passes consecutive_errors s = (Ret (Some n), s')
    /\ (successful_commands (stats s') <= total_commands (stats s'))%Z
    /\ (total_commands (stats s) <= total_commands (stats s')
        <= total_commands (stats s) + Z.of_nat (length passes))%Z
    /\ (successful_commands (stats s) <= successful_commands (stats s'))%Z
    /\ connected_clients (stats s') = connected_clients (stats s).
Proof.
  revert consecutive_errors s.
  induction passes as [|[heard recalibrated] passes IH];
    intros consecutive_errors s H.
  - exists consecutive_errors, s. cbn. repeat split; auto; lia.
  - destruct (voice_iteration_cases heard recalibrated consecutive_errors s)
      as [n1 [s1 [E1 Hc]]].
    assert (Hs1 : (successful_commands (stats s1) <= total_commands (stats s1))%Z
                  /\ (total_commands (stats s) <= total_commands (stats s1)
                      <= total_commands (stats s) + 1)%Z
                  /\ (successful_commands (stats s)
                      <= successful_commands (stats s1))%Z
                  /\ connected_clients (stats s1) = connected_clients (stats s)).
    { destruct Hc as [[-> _] | [text [_ [_ [Ev _]]]]]; [repeat split; lia|].
      destruct (execute_voice_command_returns text s) as [r [s0 [E _]]].
      destruct (voice_submit_eq text s s0 r E) as [s1' [Ev' [Hst _]]].
      rewrite Ev in Ev'. inversion Ev'; subst s1'.
      pose proof (link_only_execute_voice_command text s) as Hf.
      rewrite E in Hf. cbn [snd] in Hf.
      destruct Hf as [_ [_ [_ [Hstats _]]]].
      rewrite Hst, Hstats.
      destruct (status r =? "success"); cbn; repeat split; lia. }
    destruct Hs1 as [Ha [Hb [Hc' Hd]]].
    destruct (IH n1 s1 Ha) as [n [s' [E' [Ha' [Hb' [Hc'' Hd']]]]]].
    exists n, s'. cbn [voice_loop]. unfold bind at 1. rewrite E1.
    split; [exact E'|]. cbn [length]. repeat split; try lia; congruence.
Qed.

Lemma voice_loop_keeps_counters_consistent_witness :
  let s := sample_self [0; 0; 1]%float in
  let passes := [ (Audio (fun _ => Heard "Take off"), true);
                  (WaitTimeoutError, true);
                  (Audio (fun _ => Heard "banana"), true) ] in
  exists n s',
    voice_loop passes 0 s = (Ret (Some n), s')
    /\ (successful_commands (stats s') <= total_commands (stats s'))%Z
    /\ (total_commands (stats s) <= total_commands (stats s')
        <= total_commands (stats s) + Z.of_nat (length passes))%Z
    /\ (successful_commands (stats s) <= successful_commands (stats s'))%Z
    /\ connected_clients (stats s') = connected_clients (stats s).
Proof.
  apply (voice_loop_keeps_counters_consistent
           [ (Audio (fun _ => Heard "Take off"), true);
             (WaitTimeoutError, true);
             (Audio (fun _ => Heard "banana"), true) ] 0
           (sample_self [0; 0; 1]%float)).
  cbn. lia.
Defined.

Example voice_loop_run :
  let s' := snd (voice_loop [ (Audio (fun _ => Heard "Take off"), true);
                              (WaitTimeoutError, true);
                              (Audio (fun _ => Heard "banana"), true) ] 0
                   (sample_self [0; 0; 1]%float)) in
  total_commands (stats s') = 2%Z
  /\ successful_commands (stats s') = 1%Z
  /\ stats_last_command (stats s') = "banana".
Proof. cbv zeta. repeat split. Qed.

(** X12: as long as every recalibration goes through, the error counter
    of the voice loop stays below [max_consecutive_errors]: the fifth error
    in a row resets it.  A listen timeout leaves it as it is, neither
    counted as an error nor as a success. *)
Theorem error_counter_stays_below_five
    (passes : list (Listen * bool)) (consecutive_errors : nat) (s : Self) :
  (consecutive_errors < max_consecutive_errors)%nat ->
  Forall (fun p => snd p = true) passes ->
  exists n s',
    voice_loop passes consecutive_errors s = (Ret (Some n), s')
    /\ (n < max_consecutive_errors)%nat
    /\ voice_iteration WaitTimeoutError true consecutive_errors s
       = (Ret (Some consecutive_errors), s).
Proof.
  intros Hn Hp.
  cut (exists n s', voice_loop passes consecutive_errors s = (Ret (Some n), s')
                    /\ (n < max_consecutive_errors)%nat).
  { intros [n [s' [E Hlt]]]. exists n, s'. auto. }
  revert consecutive_errors s Hn.
  induction Hp as [|[heard recalibrated] passes Hr Hp IH];
    intros consecutive_errors s Hn.
  - exists consecutive_errors, s. split; [reflexivity | exact Hn].
  - cbn [snd] in Hr. subst recalibrated.
    destruct (voice_iteration_cases heard true consecutive_errors s)
      as [n1 [s1 [E1 Hc]]].
    assert (H1 : (n1 < max_consecutive_errors)%nat).
    { unfold max_consecutive_errors in *.
      destruct Hc as [[_ [-> | ->]] | [text [_ [_ [_ ->]]]]]; try lia.
      unfold on_voice_error, max_consecutive_errors.
      destruct (5 <=? S consecutive_errors)%nat eqn:E; [lia|].
      apply Nat.leb_gt in E. exact E. }
    destruct (IH n1 s1 H1) as [n [s' [E' Hlt]]].
    exists n, s'. cbn [voice_loop]. unfold bind at 1. rewrite E1. auto.
Qed.

Lemma error_counter_stays_below_five_witness :
  let passes := repeat (ListenFailure (Exception "no microphone"), true) 7 in
  exists n s',
    voice_loop passes 0 (sample_self [0; 0; 1]%float) = (Ret (Some n), s')
    /\ (n < max_consecutive_errors)%nat
    /\ voice_iteration WaitTimeoutError true 0 (sample_self [0; 0; 1]%float)
       = (Ret (Some 0%nat), sample_self [0; 0; 1]%float).
Proof.
  apply (error_counter_stays_below_five
           (repeat (ListenFailure (Exception "no microphone"), true) 7) 0
           (sample_self [0; 0; 1]%float)).
  - unfold max_consecutive_errors. lia.
  - repeat constructor.
Defined.

Example seven_listen_failures :
  fst (voice_loop (repeat (ListenFailure (Exception "no microphone"), true) 7) 0
         (sample_self [0; 0; 1]%float))
  = Ret (Some 2%nat).
Proof. reflexivity. Qed.

Example failures_without_recalibration :
  fst (voice_loop (repeat (ListenFailure (Exception "no microphone"), false) 7) 0
         (sample_self [0; 0; 1]%float))
  = Ret (Some 7%nat).
Proof. reflexivity. Qed.

(** ** What stream clients see over time *)

Section StreamProperties.

Context {Frame : Type}.

Lemma expected_reads_held (ops : list (Op Frame)) (f : Frame) :
  exists frames,
    expected_reads (Some f) ops = map Some frames
    /\ forall g, In g frames -> g = f \/ In g (published ops).
Proof.
  revert f; induction ops as [|o ops IH]; intros f.
  - exists []. split; [reflexivity | intros g []].
  - destruct o as [t|t|f'|n]; cbn [expected_reads published].
    + apply IH.
    + apply IH.
    + destruct (IH f') as [frames [E H]]. exists frames. split; [exact E|].
      intros g Hg. right. destruct (H g Hg) as [->|Hin];
        [left; reflexivity | right; exact Hin].
    + destruct (IH f) as [frames [E H]]. exists (f :: frames).
      split; [cbn; now rewrite E|].
      intros g [<-|Hg]; [left; reflexivity | apply H, Hg].
Qed.

(** X13: in every schedule that starts from the empty buffer, the reads
    return nothing for a while and frames from then on: once a read has
    returned a frame, no later read finds the buffer empty, so a client that
    has shown a camera frame never falls back to the placeholder.  Every
    frame read is one that was published. *)
Theorem stream_never_returns_to_placeholder
    (ops : list (Op Frame)) (b : Buffer Frame) (seen : list (option Frame)) :
  run empty_buffer ops = Some (b, seen) ->
  exists k frames,
    seen = repeat None k ++ map Some frames
    /\ forall f, In f frames -> In f (published ops).
Proof.
  intros H. apply run_reads in H as [-> _].
  cbn [empty_buffer current_frame]. clear b.
  induction ops as [|o ops IH].
  - exists 0%nat, []. split; [reflexivity | intros f []].
  - destruct o as [t|t|f|n]; cbn [expected_reads published].
    + exact IH.
    + exact IH.
    + destruct (expected_reads_held ops f) as [frames [E Hf]].
      exists 0%nat, frames. split; [exact E|].
      intros g Hg. destruct (Hf g Hg) as [->|Hin];
        [left; reflexivity | right; exact Hin].
    + destruct IH as [k [frames [E Hf]]].
      exists (S k), frames. split; [cbn; now rewrite E | exact Hf].
Qed.

End StreamProperties.

Lemma stream_never_returns_to_placeholder_witness :
  exists k frames,
    [None; Some 7; Some 8] = repeat None k ++ map Some frames
    /\ forall f, In f frames -> In f (published sample_schedule).
Proof.
  exact (stream_never_returns_to_placeholder sample_schedule
           {| current_frame := Some 8; frame_lock := None |}
           [None; Some 7; Some 8] eq_refl).
Defined.

(** ** Disconnecting and the status report *)

(** X14: [disconnect] clears [connected] and nothing else, and doing it
    again changes nothing; after it every command returns the error
    "Drone not connected" and leaves [self], the link log included, as it
    is. *)
Theorem disconnect_stops_every_command (command : string) (s : Self) :
  exists s',
    disconnect s = (Ret tt, s')
    /\ connected s' = false
    /\ same_session s' (with_connected (connected s') s)
    /\ link_calls s' = link_calls s /\ sim s' = sim s
    /\ disconnect s' = (Ret tt, s')
    /\ execute_voice_command command s'
       = (Ret (error "Drone not connected"), s').
Proof.
  unfold disconnect, bind, get_self.
  destruct (connected s) eqn:Hc.
  - eexists. split; [reflexivity|]. repeat split.
  - exists s. split; [reflexivity|]. rewrite Hc. repeat split; auto.
    rewrite execute_voice_command_dispatch, Hc. reflexivity.
Qed.

(** X15: [get_drone_status] never raises and never takes its fallback
    branch: it always returns the three keys, with [connected] as [self]
    has it and the two positions both present or both absent.  It reads at
    most the two positions and writes nothing to the simulator. *)
Theorem get_drone_status_reports_both_or_neither (s : Self) :
  exists dp tp s1 l,
    get_drone_status s = (Ret (Status (connected s) dp tp), s1)
    /\ (dp = None <-> tp = None)
    /\ link_calls s1 = link_calls s ++ l
    /\ (length l <= 2)%nat
    /\ (forall h p, ~ In (SetObjectPosition h p) l)
    /\ sim s1 = sim s
    /\ same_session s s1.
Proof.
  destruct (get_positions_calls s) as [pos [s1 [l [E [Hl [Hsim [_ H]]]]]]].
  pose proof (link_only_get_positions s) as Hf. rewrite E in Hf. cbn [snd] in Hf.
  assert (Hc : connected s1 = connected s) by apply Hf.
  exists (fst pos), (snd pos), s1, l.
  split.
  { unfold get_drone_status, try_except, bind, get_self. rewrite E, Hc.
    reflexivity. }
  assert (Hshape : (length l <= 2)%nat
                   /\ forall h p, ~ In (SetObjectPosition h p) l).
  { destruct H as [[_ H] | [dh [th [d [t [_ [_ [_ ->]]]]]]]];
      [destruct H as [[-> _] | [[dh [_ ->]] | [dh [th [_ [_ ->]]]]]]|];
      (split; [cbn; lia|]); intros h p Hin; cbn in Hin;
      repeat (destruct Hin as [Hin|Hin]; [discriminate|]); exact Hin. }
  destruct Hshape as [Hlen Hnw].
  split; [|split; [exact Hl|split; [exact Hlen|split; [exact Hnw|split;
    [exact Hsim | exact Hf]]]]].
  destruct H as [[-> _] | [dh [th [d [t [-> _]]]]]]; cbn [fst snd].
  - tauto.
  - split; discriminate.
Qed.

(** ** Camera frames *)

Lemma pixels_of_bytes (px : list Pixel) :
  forall data, pixels_of data = Some px ->
               data = concat (map rgb_bytes px) /\ length data = 3 * length px.
Proof.
  induction px as [|p px IH]; intros data H.
  - destruct data as [|a [|b [|c rest]]]; cbn in H; try discriminate.
    + split; reflexivity.
    + destruct (pixels_of rest); cbn in H; discriminate.
  - destruct data as [|a [|b [|c rest]]]; cbn in H; try discriminate.
    destruct (pixels_of rest) as [px'|] eqn:E; [|discriminate].
    cbn in H. inversion H; subst.
    destruct (IH rest E) as [-> Hlen]. cbn. split; [reflexivity|].
    rewrite length_concat in *. cbn in *. lia.
Qed.

Lemma pixels_of_length (n : nat) :
  forall data, length data = 3 * n ->
               exists px, pixels_of data = Some px /\ length px = n.
Proof.
  induction n as [|n IH]; intros data H.
  - destruct data; [|discriminate]. exists []. split; reflexivity.
  - destruct data as [|a [|b [|c rest]]]; cbn in H; try lia.
    destruct (IH rest ltac:(lia)) as [px [E Hl]].
    exists ((a, b, c) :: px). cbn. rewrite E. cbn. split; [reflexivity | lia].
Qed.

Lemma rows_of_rows (height width : nat) :
  forall px rows,
    rows_of height width px = Some rows ->
    length rows = height
    /\ Forall (fun row => length row = width) rows
    /\ concat rows = px.
Proof.
  induction height as [|height IH]; intros px rows H; cbn [rows_of] in H.
  - destruct px; [|discriminate]. inversion H; subst. repeat split. constructor.
  - destruct (length px <? width)%nat eqn:El; [discriminate|].
    apply Nat.ltb_ge in El.
    destruct (rows_of height width (skipn width px)) as [rows'|] eqn:E;
      [|discriminate].
    cbn [option_map] in H. inversion H; subst.
    destruct (IH _ _ E) as [Hlen [Hall Hcat]].
    split; [cbn; lia|]. split.
    + constructor; [now apply firstn_length_le | exact Hall].
    + cbn. rewrite Hcat. apply firstn_skipn.
Qed.

Lemma rows_of_length (height width : nat) :
  forall px, length px = height * width ->
             exists rows, rows_of height width px = Some rows.
Proof.
  induction height as [|height IH]; intros px H; cbn [rows_of].
  - destruct px; [|discriminate]. eauto.
  - assert (El : (length px <? width)%nat = false) by (apply Nat.ltb_ge; lia).
    rewrite El.
    destruct (IH (skipn width px)) as [rows E].
    { rewrite length_skipn. lia. }
    rewrite E. cbn. eauto.
Qed.

Lemma length_concat_rows (rows : Image) (width : nat) :
  Forall (fun row => length row = width) rows ->
  length (concat rows) = length rows * width.
Proof.
  induction 1 as [|row rows Hrow Hall IH]; [reflexivity|].
  cbn [concat length]. rewrite length_app, Hrow, IH. reflexivity.
Qed.

Lemma concat_rows_bytes (rows : Image) :
  concat (map (fun row => concat (map rgb_bytes row)) rows)
  = concat (map rgb_bytes (concat rows)).
Proof.
  induction rows as [|row rows IH]; [reflexivity|].
  cbn. now rewrite map_app, concat_app, IH.
Qed.

(** The bytes of the frame made from [rows] are the bytes of [rows]. *)
Lemma buffer_of_frame (rows : Image) :
  buffer_of (rgb2bgr (flip_vertical rows)) = concat (map rgb_bytes (concat rows)).
Proof.
  unfold buffer_of, rgb2bgr, flip_vertical.
  rewrite <- map_rev, rev_involutive, map_map, <- concat_rows_bytes.
  f_equal. apply map_ext. intros row. rewrite map_map. f_equal.
  apply map_ext. intros [[r g] b]. reflexivity.
Qed.

(** A returned frame comes from an answer of the sensor that [reshape]
    accepted. *)
Lemma camera_frame_inversion
    (camera : option Z)
    (getVisionSensorImg : Z -> outcome (list Byte.byte * list nat))
    (frame : Image) :
  get_drone_camera_frame camera getVisionSensorImg = Some frame ->
  exists h img_data resolution width height px rows,
    camera = Some h
    /\ getVisionSensorImg h = Ret (img_data, resolution)
    /\ img_data <> []
    /\ nth_error resolution 0 = Some width
    /\ nth_error resolution 1 = Some height
    /\ pixels_of img_data = Some px
    /\ rows_of height width px = Some rows
    /\ frame = rgb2bgr (flip_vertical rows).
Proof.
  unfold get_drone_camera_frame, get_camera_image.
  destruct camera as [h|]; [|discriminate].
  destruct (getVisionSensorImg h) as [[img_data resolution]|e] eqn:Eg;
    [|discriminate].
  destruct img_data as [|b0 img_data]; [discriminate|].
  destruct (nonempty (b0 :: img_data) && nonempty resolution); [|discriminate].
  destruct (nth_error resolution 1) as [height|] eqn:Eh; [|discriminate].
  destruct (nth_error resolution 0) as [width|] eqn:Ew; [|discriminate].
  unfold reshape.
  destruct (pixels_of (b0 :: img_data)) as [px|] eqn:Ep; [|discriminate].
  destruct (rows_of height width px) as [rows|] eqn:Er; [|discriminate].
  intros H. inversion H; subst frame.
  exists h, (b0 :: img_data), resolution, width, height, px, rows.
  repeat split; auto. discriminate.
Qed.

(** X16: a frame [get_drone_camera_frame] returns has as many rows as the
    height the sensor announced ([resolution[1]]) and as many pixels in each
    row as the width ([resolution[0]]), and it holds the sensor's image with
    nothing lost: undoing the vertical flip and the channel exchange gives
    back the bytes of the image, in order. *)
Theorem camera_frame_keeps_the_image
    (camera : option Z)
    (getVisionSensorImg : Z -> outcome (list Byte.byte * list nat))
    (frame : Image) :
  get_drone_camera_frame camera getVisionSensorImg = Some frame ->
  exists h img_data resolution width height,
    camera = Some h
    /\ getVisionSensorImg h = Ret (img_data, resolution)
    /\ nth_error resolution 0 = Some width
    /\ nth_error resolution 1 = Some height
    /\ length img_data = 3 * (height * width)
    /\ length frame = height
    /\ Forall (fun row => length row = width) frame
    /\ buffer_of frame = img_data.
Proof.
  intros H.
  destruct (camera_frame_inversion _ _ _ H)
    as [h [img_data [resolution [width [height [px [rows
        [Hc [Eg [_ [Ew [Eh [Ep [Er ->]]]]]]]]]]]]]].
  destruct (pixels_of_bytes _ _ Ep) as [Hdata Hlen].
  destruct (rows_of_rows _ _ _ _ Er) as [Hrows [Hall Hcat]].
  exists h, img_data, resolution, width, height.
  repeat split; auto.
  - rewrite Hlen, <- Hcat, (length_concat_rows _ _ Hall), Hrows. reflexivity.
  - unfold rgb2bgr, flip_vertical. now rewrite length_map, length_rev.
  - unfold rgb2bgr, flip_vertical. apply Forall_map, Forall_rev.
    eapply Forall_impl; [|exact Hall].
    intros row Hrow. now rewrite length_map.
  - rewrite buffer_of_frame, Hcat. symmetry. exact Hdata.
Qed.

Example sample_frame :
  get_drone_camera_frame (Some 31%Z) sample_sensor
  = Some [ [(Byte.x09, Byte.x08, Byte.x07); (Byte.x0c, Byte.x0b, Byte.x0a)];
           [(Byte.x03, Byte.x02, Byte.x01); (Byte.x06, Byte.x05, Byte.x04)] ].
Proof. reflexivity. Qed.

Lemma camera_frame_keeps_the_image_witness :
  exists h img_data resolution width height,
    Some 31%Z = Some h
    /\ sample_sensor h = Ret (img_data, resolution)
    /\ nth_error resolution 0 = Some width
    /\ nth_error resolution 1 = Some height
    /\ length img_data = 3 * (height * width)
    /\ length [ [(Byte.x09, Byte.x08, Byte.x07); (Byte.x0c, Byte.x0b, Byte.x0a)];
                [(Byte.x03, Byte.x02, Byte.x01); (Byte.x06, Byte.x05, Byte.x04)] ]
       = height
    /\ Forall (fun row : list Pixel => length row = width)
         [ [(Byte.x09, Byte.x08, Byte.x07); (Byte.x0c, Byte.x0b, Byte.x0a)];
           [(Byte.x03, Byte.x02, Byte.x01); (Byte.x06, Byte.x05, Byte.x04)] ]
    /\ buffer_of
         [ [(Byte.x09, Byte.x08, Byte.x07); (Byte.x0c, Byte.x0b, Byte.x0a)];
           [(Byte.x03, Byte.x02, Byte.x01); (Byte.x06, Byte.x05, Byte.x04)] ]
       = img_data.
Proof.
  exact (camera_frame_keeps_the_image (Some 31%Z) sample_sensor _ eq_refl).
Defined.

(** X17: [get_drone_camera_frame] returns no frame when there is no camera
    handle or the sensor call raises; when the sensor answers, it returns a
    frame exactly when the image is not empty, the resolution has its two
    entries and the image has three bytes for each of the width times
    height pixels; every other answer gives [None], never an exception. *)
Theorem camera_frame_needs_a_fitting_image
    (getVisionSensorImg : Z -> outcome (list Byte.byte * list nat)) :
  get_drone_camera_frame None getVisionSensorImg = None
  /\ (forall h e, getVisionSensorImg h = Raise e ->
                  get_drone_camera_frame (Some h) getVisionSensorImg = None)
  /\ (forall h img_data resolution,
         getVisionSensorImg h = Ret (img_data, resolution) ->
         (get_drone_camera_frame (Some h) getVisionSensorImg <> None <->
          img_data <> []
          /\ exists width height,
               nth_error resolution 0 = Some width
               /\ nth_error resolution 1 = Some height
               /\ length img_data = 3 * (height * width))).
Proof.
  split; [reflexivity|]. split.
  - intros h e E. unfold get_drone_camera_frame, get_camera_image.
    rewrite E. reflexivity.
  - intros h img_data resolution E. split.
    + intros H.
      destruct (get_drone_camera_frame (Some h) getVisionSensorImg)
        as [frame|] eqn:Ef; [|congruence].
      destruct (camera_frame_inversion _ _ _ Ef)
        as [h' [img' [res' [w [hh [px [rows
            [Hh [Eg [Hne [Hw [Hhh [Ep [Er _]]]]]]]]]]]]]].
      inversion Hh; subst h'. rewrite E in Eg. inversion Eg; subst.
      split; [exact Hne|]. exists w, hh. repeat split; auto.
      destruct (pixels_of_bytes _ _ Ep) as [_ Hlen].
      destruct (rows_of_rows _ _ _ _ Er) as [Hrows [Hall Hcat]].
      rewrite Hlen, <- Hcat, (length_concat_rows _ _ Hall), Hrows. reflexivity.
    + intros [Hne [w [hh [Hw [Hhh Hlen]]]]].
      unfold get_drone_camera_frame, get_camera_image. rewrite E.
      destruct img_data as [|b0 rest0]; [congruence|].
      destruct resolution as [|r0 rest]; [discriminate|].
      cbn [nonempty andb]. rewrite Hhh, Hw. unfold reshape.
      destruct (pixels_of_length (hh * w) _ Hlen) as [px [Ep Hpx]].
      rewrite Ep.
      destruct (rows_of_length hh w px Hpx) as [rows Er].
      rewrite Er. discriminate.
Qed.

Example short_image_gives_no_frame :
  get_drone_camera_frame (Some 31%Z)
    (fun _ => Ret ([Byte.x01; Byte.x02; Byte.x03], [2; 2]%nat)) = None
  /\ get_drone_camera_frame (Some 31%Z)
       (fun _ => Ret ([Byte.x01; Byte.x02; Byte.x03], [1]%nat)) = None
  /\ get_drone_camera_frame (Some 31%Z) (fun _ => Ret ([], [0; 0]%nat)) = None.
Proof. repeat split. Qed.

(** ** Phrases that never decide *)

Lemma string_app_assoc (s1 s2 s3 : string) :
  ((s1 ++ s2) ++ s3 = s1 ++ (s2 ++ s3))%string.
Proof.
  induction s1 as [|c s1 IH]; [reflexivity|].
  cbn [append]. now rewrite IH.
Qed.

Lemma contains_trans (a b c : string) :
  contains a b = true -> contains b c = true -> contains a c = true.
Proof.
  rewrite !contains_spec. intros [p [q ->]] [p' [q' ->]].
  exists (p' ++ p)%string, (q ++ q')%string.
  rewrite !string_app_assoc. reflexivity.
Qed.

Lemma any_in_subsumed (a b c : string) :
  contains a b = true -> any_in [a; b] c = contains a c.
Proof.
  intros H. rewrite any_in_two.
  destruct (contains a c) eqn:Ea; [reflexivity|].
  destruct (contains b c) eqn:Eb; [|reflexivity].
  rewrite (contains_trans a b c H Eb) in Ea. discriminate.
Qed.

(** X18: matching is by substring, so a command that contains "landing"
    contains "land" and one that contains "backward" contains "back": the
    two longer phrases never decide anything, and the normalizer answers
    the same with them left out of its lists.  Any text with "land" inside
    a word and no take-off phrase is a landing command. *)
Theorem longer_phrases_never_decide (command : string) :
  any_in ["land"; "landing"] command = contains "land" command
  /\ any_in ["back"; "backward"] command = contains "back" command
  /\ classify command = first_match shortened_rules command
  /\ (contains "land" command = true ->
      any_in ["take off"; "takeoff"; "lift off"] command = false ->
      classify command = Land).
Proof.
  assert (Hl : any_in ["land"; "landing"] command = contains "land" command)
    by (apply any_in_subsumed; reflexivity).
  assert (Hb : any_in ["back"; "backward"] command = contains "back" command)
    by (apply any_in_subsumed; reflexivity).
  split; [exact Hl|]. split; [exact Hb|]. split.
  - unfold classify, shortened_rules, takeoff_rule, hover_rule, fuzzy_rules.
    cbn [app first_match].
    rewrite Hl, Hb, !any_in_one, any_in_two with (p := "righ"). reflexivity.
  - intros H1 H2. unfold classify. rewrite H2, Hl, H1. reflexivity.
Qed.

Example island_lands : classify "fly to the island" = Land.
Proof. reflexivity. Qed.

(** ** Announcing results to the web clients *)

Lemma voice_submit_emits (command : string) (s s1 : Self) (r : Result) :
  execute_voice_command command s = (Ret r, s1) ->
  well_formed r ->
  emitted (snd (voice_submit command s))
  = if socketio_available s1 then
      emitted s1 ++ [ {| ev_event := "command_executed"; ev_command := command;
                         ev_status := status r; ev_message := message r |} ]
    else emitted s1.
Proof.
  intros E [[Hs|Hs] _]; unfold voice_submit, bind; rewrite E;
    unfold modify, get_self, emit, modify;
    cbn [socketio_available with_stats with_last_command];
    rewrite Hs; cbn; destruct (socketio_available s1); reflexivity.
Qed.

(** X19: every command is announced once, with the status and the message
    of its own result: the voice loop sends one [command_executed] event
    carrying the command text (none when socketio is off), the
    [manual_command] handler sends back one [command_result] event carrying
    the normalized text; no other event is sent. *)
Theorem command_events_match_results (command : string) (s : Self) :
  truthy (strip (lower command)) = true ->
  exists r s1,
    execute_voice_command command s = (Ret r, s1)
    /\ emitted (snd (voice_submit command s))
       = (if socketio_available s then
            emitted s ++ [ {| ev_event := "command_executed";
                              ev_command := command;
                              ev_status := status r;
                              ev_message := message r |} ]
          else emitted s)
    /\ emitted (snd (handle_manual_command (Some command) s))
       = emitted s ++ [ {| ev_event := "command_result";
                           ev_command := strip (lower command);
                           ev_status := status r;
                           ev_message := message r |} ].
Proof.
  intros Ht.
  destruct (execute_voice_command_returns command s) as [r [s1 [E Hwf]]].
  pose proof (link_only_execute_voice_command command s) as Hf.
  rewrite E in Hf. cbn [snd] in Hf.
  destruct Hf as [_ [_ [_ [_ [_ [Hso Hem]]]]]].
  exists r, s1. split; [exact E|]. split.
  - rewrite (voice_submit_emits command s s1 r E Hwf), Hso, Hem. reflexivity.
  - unfold handle_manual_command. rewrite Ht. unfold bind.
    assert (E' : execute_voice_command (strip (lower command)) s = (Ret r, s1)).
    { rewrite <- E. rewrite !execute_voice_command_dispatch, normalize_idem.
      reflexivity. }
    rewrite E'. cbn. now rewrite Hem.
Qed.

Lemma command_events_match_results_witness :
  let s := sample_self [0; 0; 1]%float in
  exists r s1,
    execute_voice_command " Land " s = (Ret r, s1)
    /\ emitted (snd (voice_submit " Land " s))
       = (if socketio_available s then
            emitted s ++ [ {| ev_event := "command_executed";
                              ev_command := " Land ";
                              ev_status := status r;
                              ev_message := message r |} ]
          else emitted s)
    /\ emitted (snd (handle_manual_command (Some " Land ") s))
       = emitted s ++ [ {| ev_event := "command_result";
                           ev_command := strip (lower " Land ");
                           ev_status := status r;
                           ev_message := message r |} ].
Proof.
  exact (command_events_match_results " Land " (sample_self [0; 0; 1]%float)
           eq_refl).
Defined.

(** ** Discovery, step by step *)

(** [setup_objects] answers true exactly when a drone and a target
    are found.  It looks for the target only once the drone is found and
    for the camera only once both are: when it answers false the camera
    handle is the one it had, and without a drone so is the target handle.
    Not finding a camera does not make it answer false. *)
Theorem setup_objects_needs_drone_and_target (scene : Scene) (hs : Handles) :
  let r := setup_objects scene hs in
  (fst r = true <->
   find_object scene drone_names (h_drone hs) <> None
   /\ find_object scene target_names (h_target hs) <> None)
  /\ (fst r = false -> h_camera (snd r) = h_camera hs)
  /\ (find_object scene drone_names (h_drone hs) = None ->
      h_target (snd r) = h_target hs)
  /\ h_drone (snd r) = find_object scene drone_names (h_drone hs).
Proof.
  cbv zeta. unfold setup_objects.
  destruct (find_object scene drone_names (h_drone hs)) as [dh|];
    [destruct (find_object scene target_names (h_target hs)) as [th|]|];
    cbn; repeat split; try discriminate; try congruence; auto;
    intros [H1 H2]; congruence.
Qed.

(** ** A handle that is zero *)

(** X20: [get_positions] tests the handles for truth, so a drone or a
    target whose handle is the integer 0 counts as missing: no position is
    read, and on a connected drone every command comes back without a link
    call, take-off, landing and moves as errors.  [move_target] tests
    [is not None] instead and would write to a target of handle 0. *)
Theorem zero_handle_counts_as_missing
    (command : string) (position : ndarray) (s : Self) :
  connected s = true ->
  drone_handle s = Some 0%Z \/ target_handle s = Some 0%Z ->
  get_positions s = (Ret (None, None), s)
  /\ (exists r,
         execute_voice_command command s = (Ret r, s)
         /\ (status r = "error" \/ classify (strip (lower command)) = Hover))
  /\ (target_handle s = Some 0%Z ->
      link_calls (snd (move_target position s))
      = link_calls s ++ [SetObjectPosition 0 position]).
Proof.
  intros Hc Hz.
  assert (E : get_positions s = (Ret (None, None), s)).
  { unfold get_positions, bind, get_self, try_except.
    destruct Hz as [-> | ->]; cbn [truthy_handle Z.eqb];
      [reflexivity|].
    destruct (truthy_handle (drone_handle s)); reflexivity. }
  split; [exact E|]. split.
  - destruct (operations_without_read s s None E) as [E1 [E2 E3]].
    rewrite execute_voice_command_connected by exact Hc.
    destruct (classify (strip (lower command))); cbn [perform].
    + rewrite E1. eexists. split; [reflexivity | left; reflexivity].
    + rewrite E2. eexists. split; [reflexivity | left; reflexivity].
    + rewrite E3. eexists. split; [reflexivity | left; reflexivity].
    + eexists. split; [reflexivity | right; reflexivity].
    + eexists. split; [reflexivity | left; reflexivity].
  - intros Ht.
    destruct (move_target_write position s 0%Z Ht) as [s2 [Em [Hl _]]].
    rewrite Em. exact Hl.
Qed.

Lemma zero_handle_counts_as_missing_witness :
  let s := with_link_calls []
             {| connected := true; drone_handle := Some 5%Z;
                target_handle := Some 0%Z;
                sim := sample_sim [0; 0; 1]%float [0; 0; 1]%float;
                link_calls := []; stats := fresh_stats; last_command := "";
                socketio_available := true; emitted := [] |} in
  get_positions s = (Ret (None, None), s)
  /\ (exists r,
         execute_voice_command "up" s = (Ret r, s)
         /\ (status r = "error" \/ classify (strip (lower "up")) = Hover))
  /\ (target_handle s = Some 0%Z ->
      link_calls (snd (move_target [0; 0; 1]%float s))
      = link_calls s ++ [SetObjectPosition 0 [0; 0; 1]%float]).
Proof.
  intros s.
  exact (zero_handle_counts_as_missing "up" [0; 0; 1]%float s eq_refl
           (or_intror eq_refl)).
Defined.
